(** * HubSpot MCP server: contact tools and their command-line twins

    A shallow embedding of [src/index.ts].  The file registers six tools on
    an MCP server (create-contact, get-contact, search-contacts,
    update-contact, delete-contact, get-last-contacts) and, in [main],
    repeats the same six operations as command-line branches selected by
    [process.argv].

    Every handler is an [async] function that talks to the HubSpot client,
    writes to the console and, on the command line, ends the process.  These
    effects are kept as the nodes of a small program tree ([Prog]); [run]
    interprets a tree against a [World] (what the remote CRM answers, what
    the clock shows) and yields the ordered log of effects together with
    the way the program ended. *)

From Stdlib Require Import String Ascii List ZArith Bool Lia DecimalString.
Import ListNotations.
Open Scope list_scope.
Open Scope string_scope.

Set Implicit Arguments.

(** ** JavaScript values that the code looks at *)

(** The line feed written [\n] in the source's string literals. *)
Definition LF : string := String (ascii_of_nat 10) EmptyString.

(** A value of type [string | undefined] (an optional tool argument, or
    [args[i]] of the command line) is an [option string].  [truthy] is the
    test that [if (v)], [!v], [v || d] and [v ? a : b] perform on it. *)
Definition truthy (v : option string) : bool :=
  match v with
  | Some s => negb (s =? "")
  | None => false
  end.

(** [v || d] for a string default [d]. *)
Definition or_else (v : option string) (d : string) : string :=
  match v with
  | Some s => if s =? "" then d else s
  | None => d
  end.

(** A property of a CRM record has type [string | null]; reading a key the
    record does not carry gives [undefined]. *)
Inductive JsVal : Type :=
| JUndefined
| JNull
| JStr (s : string).

(** [${v}] inside a template literal. *)
Definition js_to_string (v : JsVal) : string :=
  match v with
  | JUndefined => "undefined"
  | JNull => "null"
  | JStr s => s
  end.

(** The string a [JsVal] holds when it is truthy. *)
Definition js_truthy (v : JsVal) : option string :=
  match v with
  | JStr s => if s =? "" then None else Some s
  | _ => None
  end.

(** [v || d] on a [JsVal]. *)
Definition js_or (v : JsVal) (d : string) : string :=
  match js_truthy v with
  | Some s => s
  | None => d
  end.

(** ** Objects used as records of strings *)

(** [Record<string, string>]: the keys in insertion order, each once.
    [JSON.stringify] prints them in that order. *)
Definition JsObject : Type := list (string * string).

(** [o[k] = v]: an existing key keeps its place, a new key goes last. *)
Fixpoint obj_set (k v : string) (o : JsObject) : JsObject :=
  match o with
  | [] => [(k, v)]
  | (k', v') :: rest =>
      if k =? k' then (k, v) :: rest else (k', v') :: obj_set k v rest
  end.

(** [o[k]]. *)
Fixpoint obj_get (o : JsObject) (k : string) : option string :=
  match o with
  | [] => None
  | (k', v) :: rest => if k =? k' then Some v else obj_get rest k
  end.

(** [if (v) o[k] = v;] *)
Definition set_if_truthy (v : option string) (k : string) (o : JsObject)
  : JsObject :=
  match v with
  | Some s => if s =? "" then o else obj_set k s o
  | None => o
  end.

(** ** The HubSpot contacts API, as far as the code uses it *)

(** [SimplePublicObject]: the identifier and the properties of a contact. *)
Record SimplePublicObject : Type := {
  id : string;
  properties : list (string * option string)
}.

(** [contact.properties.k] *)
Fixpoint prop (ps : list (string * option string)) (k : string) : JsVal :=
  match ps with
  | [] => JUndefined
  | (k', v) :: rest =>
      if k =? k'
      then match v with Some s => JStr s | None => JNull end
      else prop rest k
  end.

(** The answer of [getPage] and of [doSearch]. *)
Record Collection : Type := { results : list SimplePublicObject }.

Inductive FilterOperatorEnum : Type := Eq_.

Record Filter : Type := {
  propertyName : string;
  operator : FilterOperatorEnum;
  value : string
}.

Record FilterGroup : Type := { filters : list Filter }.

(** The object literal handed to [searchApi.doSearch]; [sorts] is [None]
    when the literal has no such key. *)
Record PublicObjectSearchRequest : Type := {
  filterGroups : list FilterGroup;
  req_properties : list string;
  limit : Z;
  sorts : option (list string)
}.

(** One call on [hubspotClient.crm.contacts], with its arguments.  The
    [option]s of [getPage] are the positions passed as [undefined]. *)
Inductive RemoteCall : Type :=
| basicApi_create (props : JsObject)
| basicApi_getPage (lim : Z) (after : option string)
    (props : option (list string))
    (propertiesWithHistory : option (list string))
    (associations : option (list string)) (archived : bool)
| basicApi_update (contactId : string) (props : JsObject)
| basicApi_archive (contactId : string)
| searchApi_doSearch (req : PublicObjectSearchRequest).

(** What the promise of each call resolves to. *)
Definition Response (c : RemoteCall) : Type :=
  match c with
  | basicApi_create _ => SimplePublicObject
  | basicApi_getPage _ _ _ _ _ _ => Collection
  | basicApi_update _ _ => SimplePublicObject
  | basicApi_archive _ => unit
  | searchApi_doSearch _ => Collection
  end.

(** A thrown value ([error: any]): [null]/[undefined], or an object whose
    [message] is read. *)
Inductive Thrown : Type :=
| ThrownNullish
| ThrownObject (message : JsVal).

(** [error?.message] *)
Definition optional_message (error : Thrown) : JsVal :=
  match error with
  | ThrownNullish => JUndefined
  | ThrownObject message => message
  end.

(** [error?.message || 'Unknown error'] *)
Definition error_message (error : Thrown) : string :=
  js_or (optional_message error) "Unknown error".

(** ** What a tool handler returns *)

Record ContentItem : Type := { type : string; text : string }.

Record CallToolResult : Type := { content : list ContentItem }.

(** [{ content: [{ type: "text", text: t }] }] *)
Definition text_content (t : string) : CallToolResult :=
  {| content := [ {| type := "text"; text := t |} ] |}.

(** ** Host functions *)

(** [Date] and [JSON] belong to the JavaScript host, and what they print
    depends on its locale and time zone; the handlers are stated over any
    host. *)
Class Host : Type := {
  Date : Type;
  (** [new Date(s)] *)
  Date_of_string : string -> Date;
  (** [d.toLocaleString()] *)
  toLocaleString : Date -> string;
  (** [JSON.stringify(o, null, 2)] *)
  JSON_stringify : JsObject -> string
}.

(** ** Programs with effects *)

Inductive Stream : Type := Stdout | Stderr.

(** An argument of [console.log] / [console.error]. *)
Inductive LogArg : Type :=
| LStr (s : string)
| LErr (error : Thrown).

Section Programs.
Context {host : Host}.

(** The effects of the source: [await] on a client call (the promise
    resolves or rejects), console output, [new Date()],
    [server.connect(transport)] and [process.exit(code)], after which
    nothing runs. *)
Inductive Prog (A : Type) : Type :=
| Ret (a : A)
| Throw (error : Thrown)
| Await (c : RemoteCall) (k : Thrown + Response c -> Prog A)
| Console (s : Stream) (args : list LogArg) (k : Prog A)
| NewDate (k : Date -> Prog A)
| Connect (k : Prog A)
| Exit (code : Z).

Arguments Ret {A} a.
Arguments Throw {A} error.
Arguments Exit {A} code.

Fixpoint bind {A B : Type} (p : Prog A) (f : A -> Prog B) : Prog B :=
  match p with
  | Ret a => f a
  | Throw error => Throw error
  | Await c k => Await c (fun r => bind (k r) f)
  | Console s args k => Console s args (bind k f)
  | NewDate k => NewDate (fun d => bind (k d) f)
  | Connect k => Connect (bind k f)
  | Exit code => Exit code
  end.

(** [try { body } catch (error) { handler }]; [process.exit] inside the
    body is not an exception. *)
Fixpoint try_catch {A : Type} (body : Prog A) (handler : Thrown -> Prog A)
  : Prog A :=
  match body with
  | Ret a => Ret a
  | Throw error => handler error
  | Await c k => Await c (fun r => try_catch (k r) handler)
  | Console s args k => Console s args (try_catch k handler)
  | NewDate k => NewDate (fun d => try_catch (k d) handler)
  | Connect k => Connect (try_catch k handler)
  | Exit code => Exit code
  end.

(** [await call]: the value of the promise, or its rejection thrown. *)
Definition await (c : RemoteCall) : Prog (Response c) :=
  Await c (fun r => match r with
                    | inl error => Throw error
                    | inr response => Ret response
                    end).

Definition console_log (args : list LogArg) : Prog unit :=
  Console Stdout args (Ret tt).

Definition console_error (args : list LogArg) : Prog unit :=
  Console Stderr args (Ret tt).

Definition new_Date : Prog Date := NewDate (fun d => Ret d).

Definition server_connect : Prog unit := Connect (Ret tt).

Definition process_exit {A : Type} (code : Z) : Prog A := Exit code.
End Programs.

Arguments Ret {host A} a.
Arguments Throw {host A} error.
Arguments Exit {host A} code.

Declare Scope prog_scope.
Delimit Scope prog_scope with prog.
Notation "x <- p ;; q" := (bind p (fun x => q))
  (at level 61, p at next level, right associativity) : prog_scope.
Notation "p ;; q" := (bind p (fun _ => q))
  (at level 61, right associativity) : prog_scope.
Open Scope prog_scope.

Section Interpreter.
Context {host : Host}.

(** What the program cannot decide: the fate of every client call, and
    the time shown by the [n]-th reading of the clock. *)
Record World : Type := {
  remote : forall c : RemoteCall, Thrown + Response c;
  clock : nat -> Date
}.

Inductive Event : Type :=
| ECall (c : RemoteCall)
| EConsole (s : Stream) (args : list LogArg)
| ENewDate
| EConnect.

Inductive Outcome (A : Type) : Type :=
| Returned (a : A)
| Rejected (error : Thrown)
| Exited (code : Z).

Arguments Returned {A} a.
Arguments Rejected {A} error.
Arguments Exited {A} code.

(** [run w p tick]: the effects of [p] in order, and how it ended;
    [tick] counts the earlier readings of the clock. *)
Fixpoint run {A : Type} (w : World) (p : Prog A) (tick : nat)
  : list Event * Outcome A :=
  match p with
  | Ret a => ([], Returned a)
  | Throw error => ([], Rejected error)
  | Await c k =>
      let (log, out) := run w (k (remote w c)) tick in (ECall c :: log, out)
  | Console s args k =>
      let (log, out) := run w k tick in (EConsole s args :: log, out)
  | NewDate k =>
      let (log, out) := run w (k (clock w tick)) (S tick) in
      (ENewDate :: log, out)
  | Connect k =>
      let (log, out) := run w k tick in (EConnect :: log, out)
  | Exit code => ([], Exited code)
  end.

(** How often a log read the clock. *)
Fixpoint ticks (log : list Event) : nat :=
  match log with
  | [] => 0
  | ENewDate :: rest => S (ticks rest)
  | _ :: rest => ticks rest
  end.

(** The client calls of a log, in order. *)
Fixpoint calls (log : list Event) : list RemoteCall :=
  match log with
  | [] => []
  | ECall c :: rest => c :: calls rest
  | _ :: rest => calls rest
  end.

Definition calls_of {A : Type} (w : World) (p : Prog A) : list RemoteCall :=
  calls (fst (run w p 0)).

Definition outcome_of {A : Type} (w : World) (p : Prog A) : Outcome A :=
  snd (run w p 0).
End Interpreter.

Arguments Returned {A} a.
Arguments Rejected {A} error.
Arguments Exited {A} code.


(** ** The six tool handlers (lines 27-315) *)

Section Tools.
Context {host : Host}.

(** [${n}] for a number. *)
Definition number_to_string (n : Z) : string :=
  DecimalString.NilZero.string_of_int (Z.to_int n).

(** [l.map(f)] for a callback with effects, in the order of the list. *)
Fixpoint mapM {A B : Type} (f : A -> Prog B) (l : list A) : Prog (list B) :=
  match l with
  | [] => Ret []
  | x :: rest => y <- f x ;; ys <- mapM f rest ;; Ret (y :: ys)
  end.

(** [l.forEach(f)] *)
Fixpoint forEach {A : Type} (f : A -> Prog unit) (l : list A) : Prog unit :=
  match l with
  | [] => Ret tt
  | x :: rest => f x ;; forEach f rest
  end.

(** The properties of create-contact (lines 38-44, again 338-344). *)
Definition create_properties (email : string)
  (firstName lastName phone : option string) : JsObject :=
  let properties := [("email", email)] in
  let properties := set_if_truthy firstName "firstname" properties in
  let properties := set_if_truthy lastName "lastname" properties in
  let properties := set_if_truthy phone "phone" properties in
  properties.

Definition create_contact_tool (email : string)
  (firstName lastName phone : option string) : Prog CallToolResult :=
  try_catch
    (let properties := create_properties email firstName lastName phone in
     response <- await (basicApi_create properties) ;;
     Ret (text_content
            ("Contact created successfully:" ++ LF ++
             "ID: " ++ id response ++ LF ++
             "Email: " ++ email ++ LF ++
             "Name: " ++ or_else firstName "" ++ " " ++ or_else lastName "")))
    (fun error =>
       console_error [LStr "Error creating contact:"; LErr error] ;;
       Ret (text_content
              ("Failed to create contact: " ++ error_message error))).

(** The search request of get-contact (lines 80-94, again 366-380). *)
Definition get_contact_request (email : string) : PublicObjectSearchRequest :=
  {| filterGroups :=
       [ {| filters := [ {| propertyName := "email";
                            operator := Eq_;
                            value := email |} ] |} ];
     req_properties := ["email"; "firstname"; "lastname"; "phone"];
     limit := 1%Z;
     sorts := None |}.

(** The text for a contact that get-contact found (lines 114 and 390). *)
Definition contact_found_text (contact : SimplePublicObject) : string :=
  "Contact found:" ++ LF ++
  "ID: " ++ id contact ++ LF ++
  "Email: " ++ js_to_string (prop (properties contact) "email") ++ LF ++
  "Name: " ++ js_or (prop (properties contact) "firstname") "" ++ " " ++
              js_or (prop (properties contact) "lastname") "" ++ LF ++
  "Phone: " ++ js_or (prop (properties contact) "phone") "N/A".

Definition get_contact_tool (email : string) : Prog CallToolResult :=
  try_catch
    (let searchRequest := get_contact_request email in
     searchResponse <- await (searchApi_doSearch searchRequest) ;;
     match results searchResponse with
     | [] => Ret (text_content ("No contact found with email: " ++ email))
     | contact :: _ => Ret (text_content (contact_found_text contact))
     end)
    (fun error =>
       console_error [LStr "Error getting contact:"; LErr error] ;;
       Ret (text_content ("Failed to get contact: " ++ error_message error))).

(** [props.createdate ? new Date(props.createdate) : new Date()] *)
Definition createDate_of (props : list (string * option string)) : Prog Date :=
  match js_truthy (prop props "createdate") with
  | Some createdate => Ret (Date_of_string createdate)
  | None => new_Date
  end.

(** The array of lines that the callback given to [response.results.map]
    joins, for the date it settled on (lines 155-162 and 285-292, the same
    text). *)
Definition contact_block (contact : SimplePublicObject) (createDate : Date)
  : string :=
  let props := properties contact in
  String.concat LF
    [ "Contact ID: " ++ id contact;
      "Name: " ++ js_or (prop props "firstname") "" ++ " " ++
                  js_or (prop props "lastname") "";
      "Email: " ++ js_or (prop props "email") "N/A";
      "Phone: " ++ js_or (prop props "phone") "N/A";
      "Created: " ++ toLocaleString createDate;
      "---" ].

(** The callback given to [response.results.map] by search-contacts and by
    get-last-contacts (lines 152-163 and 282-293, the same text). *)
Definition format_contact (contact : SimplePublicObject) : Prog string :=
  let props := properties contact in
  createDate <- createDate_of props ;;
  Ret (contact_block contact createDate).

(** The property list of both listing operations. *)
Definition list_properties : list string :=
  ["firstname"; "lastname"; "email"; "company"; "phone"; "createdate"].

(** The page request of search-contacts (lines 143-150, again 420-427). *)
Definition search_contacts_call : RemoteCall :=
  let limit := 10%Z in
  basicApi_getPage limit None (Some list_properties) None None false.

Definition search_contacts_tool (query : option string)
  : Prog CallToolResult :=
  try_catch
    (let limit := 10%Z in
     response <- await search_contacts_call ;;
     blocks <- mapM format_contact (results response) ;;
     let formattedContacts := String.concat (LF ++ LF) blocks in
     Ret (text_content
            ("Last " ++ number_to_string limit ++ " contacts:" ++ LF ++ LF ++
             formattedContacts)))
    (fun error =>
       console_error [LStr "Error searching contacts:"; LErr error] ;;
       Ret (text_content
              ("Failed to search contacts: " ++ error_message error))).

(** The properties of update-contact (lines 199-204). *)
Definition update_properties (email firstName lastName phone : option string)
  : JsObject :=
  let properties := [] in
  let properties := set_if_truthy email "email" properties in
  let properties := set_if_truthy firstName "firstname" properties in
  let properties := set_if_truthy lastName "lastname" properties in
  let properties := set_if_truthy phone "phone" properties in
  properties.

(** The confirmation of update-contact (lines 212-214 and 481). *)
Definition contact_updated_text (contactId : string) (properties : JsObject)
  : string :=
  "Contact updated successfully:" ++ LF ++
  "ID: " ++ contactId ++ LF ++
  "Updated Properties: " ++ JSON_stringify properties.

Definition update_contact_tool (contactId : string)
  (email firstName lastName phone : option string) : Prog CallToolResult :=
  try_catch
    (let properties := update_properties email firstName lastName phone in
     response <- await (basicApi_update contactId properties) ;;
     Ret (text_content (contact_updated_text contactId properties)))
    (fun error =>
       console_error [LStr "Error updating contact:"; LErr error] ;;
       Ret (text_content
              ("Failed to update contact: " ++ error_message error))).

Definition delete_contact_tool (contactId : string) : Prog CallToolResult :=
  try_catch
    (await (basicApi_archive contactId) ;;
     Ret (text_content
            ("Contact with ID " ++ contactId ++
             " was successfully deleted.")))
    (fun error =>
       console_error [LStr "Error deleting contact:"; LErr error] ;;
       Ret (text_content
              ("Failed to delete contact: " ++ error_message error))).

(** The search request of get-last-contacts (lines 273-278, again
    493-498). *)
Definition get_last_contacts_request : PublicObjectSearchRequest :=
  let limit := 2%Z in
  {| filterGroups := [];
     req_properties := list_properties;
     limit := limit;
     sorts := Some ["createdate"] |}.

Definition get_last_contacts_tool : Prog CallToolResult :=
  try_catch
    (let limit := 2%Z in
     let searchRequest := get_last_contacts_request in
     response <- await (searchApi_doSearch searchRequest) ;;
     blocks <- mapM format_contact (results response) ;;
     let formattedContacts := String.concat (LF ++ LF) blocks in
     Ret (text_content
            ("Last " ++ number_to_string limit ++
             " contacts (sorted by creation date):" ++ LF ++ LF ++
             formattedContacts)))
    (fun error =>
       console_error [LStr "Error getting last contacts:"; LErr error] ;;
       Ret (text_content
              ("Failed to get last contacts: " ++ error_message error))).

End Tools.

(** ** The command line (function [main], lines 317-519) *)

Section CommandLine.
Context {host : Host}.

(** [command === name], where [command] may be [undefined]. *)
Definition is_command (command : option string) (name : string) : bool :=
  match command with
  | Some c => c =? name
  | None => false
  end.

(** [if (!v) { ...usage...; process.exit(1); }] followed by code that uses
    [v]: the code after the guard runs only on a truthy [v]. *)
Definition guard_truthy {A : Type} (v : option string) (usage : Prog A)
  (rest : string -> Prog A) : Prog A :=
  match v with
  | Some s => if s =? "" then usage else rest s
  | None => usage
  end.

(** Two lines on the error stream, then [process.exit(1)]. *)
Definition usage_exit {A : Type} (usage example : string) : Prog A :=
  console_error [LStr usage] ;;
  console_error [LStr example] ;;
  process_exit 1%Z.

(** [console.error(label, error?.message || 'Unknown error');
    process.exit(1);] *)
Definition fail_exit {A : Type} (label : string) (error : Thrown) : Prog A :=
  console_error [LStr label; LStr (error_message error)] ;;
  process_exit 1%Z.

Definition cli_create_contact (args : list string) : Prog unit :=
  let email := nth_error args 0 in
  let firstName := nth_error args 1 in
  let lastName := nth_error args 2 in
  let phone := nth_error args 3 in
  guard_truthy email
    (usage_exit
       "Usage: node build/index.js create-contact [EMAIL] [FIRSTNAME] [LASTNAME] [PHONE]"
       "Example: node build/index.js create-contact john@example.com John Doe +1234567890")
    (fun email =>
       try_catch
         (let properties :=
            create_properties email firstName lastName phone in
          response <- await (basicApi_create properties) ;;
          console_log
            [LStr ("Contact created successfully:" ++ LF ++
                   "ID: " ++ id response ++ LF ++
                   "Email: " ++ email ++ LF ++
                   "Name: " ++ or_else firstName "" ++ " " ++
                               or_else lastName "")] ;;
          process_exit 0%Z)
         (fail_exit "Error creating contact:")).

Definition cli_get_contact (args : list string) : Prog unit :=
  let email := nth_error args 0 in
  guard_truthy email
    (usage_exit
       "Usage: node build/index.js get-contact [EMAIL]"
       "Example: node build/index.js get-contact john@example.com")
    (fun email =>
       try_catch
         (let searchRequest := get_contact_request email in
          searchResponse <- await (searchApi_doSearch searchRequest) ;;
          match results searchResponse with
          | [] =>
              console_log [LStr ("No contact found with email: " ++ email)] ;;
              process_exit 0%Z
          | contact :: _ =>
              console_log [LStr (contact_found_text contact)] ;;
              process_exit 0%Z
          end)
         (fail_exit "Error getting contact:")).

Definition cli_delete_contact (args : list string) : Prog unit :=
  let contactId := nth_error args 0 in
  guard_truthy contactId
    (usage_exit
       "Usage: node build/index.js delete-contact [CONTACT_ID]"
       "Example: node build/index.js delete-contact 12345")
    (fun contactId =>
       try_catch
         (await (basicApi_archive contactId) ;;
          console_log
            [LStr ("Contact with ID " ++ contactId ++
                   " deleted successfully.")] ;;
          process_exit 0%Z)
         (fail_exit "Error deleting contact:")).

(** The callback given to [response.results.forEach] by both listing
    branches (lines 430-439 and 503-512, the same text). *)
Definition print_contact (contact : SimplePublicObject) : Prog unit :=
  let props := properties contact in
  createDate <- createDate_of props ;;
  console_log [LStr ("Contact ID: " ++ id contact)] ;;
  console_log [LStr ("Name: " ++ js_or (prop props "firstname") "" ++ " " ++
                                 js_or (prop props "lastname") "")] ;;
  console_log [LStr ("Email: " ++ js_or (prop props "email") "N/A")] ;;
  console_log [LStr ("Phone: " ++ js_or (prop props "phone") "N/A")] ;;
  console_log [LStr ("Created: " ++ toLocaleString createDate)] ;;
  console_log [LStr ("---" ++ LF)].

Definition cli_search_contacts : Prog unit :=
  try_catch
    (response <- await search_contacts_call ;;
     console_log [LStr (LF ++ "Last 10 contacts:" ++ LF)] ;;
     forEach print_contact (results response) ;;
     process_exit 0%Z)
    (fail_exit "Error searching contacts:").

(** The [switch (flag)] of the update-contact branch. *)
Definition switch_flag (flag value : string) (properties : JsObject)
  : JsObject :=
  if flag =? "--email" then obj_set "email" value properties
  else if flag =? "--firstName" then obj_set "firstname" value properties
  else if flag =? "--lastName" then obj_set "lastname" value properties
  else if flag =? "--phone" then obj_set "phone" value properties
  else properties.

(** [for (let i = 0; i < updateArgs.length; i += 2)]: the arguments are
    read two by two; a flag without a value, or with an empty one, is
    passed over. *)
Fixpoint parse_update_args (updateArgs : list string) (properties : JsObject)
  : JsObject :=
  match updateArgs with
  | flag :: value :: rest =>
      parse_update_args rest
        (if value =? "" then properties else switch_flag flag value properties)
  | _ => properties
  end.

Definition cli_update_contact (args : list string) : Prog unit :=
  let contactId := nth_error args 0 in
  let updateArgs := tl args in
  guard_truthy contactId
    (usage_exit
       "Usage: node build/index.js update-contact [CONTACT_ID] --email [EMAIL] --firstName [FIRSTNAME] --lastName [LASTNAME] --phone [PHONE]"
       "Example: node build/index.js update-contact 12345 --email new@example.com --firstName John --lastName Doe --phone +1234567890")
    (fun contactId =>
       try_catch
         (let properties := parse_update_args updateArgs [] in
          await (basicApi_update contactId properties) ;;
          console_log [LStr (contact_updated_text contactId properties)] ;;
          process_exit 0%Z)
         (fail_exit "Error updating contact:")).

Definition cli_get_last_contacts : Prog unit :=
  try_catch
    (let searchRequest := get_last_contacts_request in
     response <- await (searchApi_doSearch searchRequest) ;;
     console_log
       [LStr (LF ++ "Last 2 contacts (sorted by creation date):" ++ LF)] ;;
     forEach print_contact (results response) ;;
     process_exit 0%Z)
    (fail_exit "Error getting last contacts:").

(** The chain of [if (command === ...)] of [main]; with no known command
    nothing more is done and the server keeps serving. *)
Definition dispatch (command : option string) (args : list string)
  : Prog unit :=
  if is_command command "create-contact" then cli_create_contact args
  else if is_command command "get-contact" then cli_get_contact args
  else if is_command command "delete-contact" then cli_delete_contact args
  else if is_command command "search-contacts" then cli_search_contacts
  else if is_command command "update-contact" then cli_update_contact args
  else if is_command command "get-last-contacts" then cli_get_last_contacts
  else Ret tt.

(** [main]: the server is connected first; then
    [const [,, command, ...args] = process.argv] selects a branch.
    Connecting the standard-input transport is taken to succeed, so the
    [catch] on [main()] at the end of the file has nothing to catch:
    every client call of [main] sits in a [try] block of its own. *)
Definition main (argv : list string) : Prog unit :=
  server_connect ;;
  console_error [LStr "HubSpot MCP Server running on stdio"] ;;
  let command := nth_error argv 2 in
  let args := skipn 3 argv in
  dispatch command args.

End CommandLine.

(** The date that [createDate_of] settles on in world [w] at clock
    reading [tick], and the clock readings it makes. *)
Definition settled_date {host : Host} (w : World)
  (props : list (string * option string)) (tick : nat) : Date :=
  match js_truthy (prop props "createdate") with
  | Some createdate => Date_of_string createdate
  | None => clock w tick
  end.

Definition date_log (props : list (string * option string)) : list Event :=
  match js_truthy (prop props "createdate") with
  | Some _ => []
  | None => [ENewDate]
  end.

(** ** Tool requests *)

Section Registry.
Context {host : Host}.

(** The name of one of the six registered tools and arguments for it, of
    the types that its schema declares (a string, or an optional string).
    Whether the schema accepts the arguments is [schema_valid], below;
    the server asks that before it runs the handler. *)
Inductive ToolRequest : Type :=
| CreateContact (email : string) (firstName lastName phone : option string)
| GetContact (email : string)
| SearchContacts (query : option string)
| UpdateContact (contactId : string)
    (email firstName lastName phone : option string)
| DeleteContact (contactId : string)
| GetLastContacts.

(** The first argument of [server.tool]. *)
Definition tool_name (t : ToolRequest) : string :=
  match t with
  | CreateContact _ _ _ _ => "create-contact"
  | GetContact _ => "get-contact"
  | SearchContacts _ => "search-contacts"
  | UpdateContact _ _ _ _ _ => "update-contact"
  | DeleteContact _ => "delete-contact"
  | GetLastContacts => "get-last-contacts"
  end.

(** The handler registered under the name, on the arguments: what runs
    once the schema has accepted them. *)
Definition call_tool (t : ToolRequest) : Prog CallToolResult :=
  match t with
  | CreateContact email firstName lastName phone =>
      create_contact_tool email firstName lastName phone
  | GetContact email => get_contact_tool email
  | SearchContacts query => search_contacts_tool query
  | UpdateContact contactId email firstName lastName phone =>
      update_contact_tool contactId email firstName lastName phone
  | DeleteContact contactId => delete_contact_tool contactId
  | GetLastContacts => get_last_contacts_tool
  end.

(** The client call written in the [try] block of each handler. *)
Definition remote_call (t : ToolRequest) : RemoteCall :=
  match t with
  | CreateContact email firstName lastName phone =>
      basicApi_create (create_properties email firstName lastName phone)
  | GetContact email => searchApi_doSearch (get_contact_request email)
  | SearchContacts _ => search_contacts_call
  | UpdateContact contactId email firstName lastName phone =>
      basicApi_update contactId
        (update_properties email firstName lastName phone)
  | DeleteContact contactId => basicApi_archive contactId
  | GetLastContacts => searchApi_doSearch get_last_contacts_request
  end.

(** The text before the message in the [catch] block of each handler. *)
Definition failure_prefix (t : ToolRequest) : string :=
  match t with
  | CreateContact _ _ _ _ => "Failed to create contact: "
  | GetContact _ => "Failed to get contact: "
  | SearchContacts _ => "Failed to search contacts: "
  | UpdateContact _ _ _ _ _ => "Failed to update contact: "
  | DeleteContact _ => "Failed to delete contact: "
  | GetLastContacts => "Failed to get last contacts: "
  end.

(** A result is a failure when its text is one of the [catch] blocks';
    they all begin alike. *)
Definition is_failure (r : CallToolResult) : bool :=
  existsb (fun item => String.prefix "Failed to " (text item)) (content r).

(** [--flag value] when the field is given. *)
Definition flag_args (flag : string) (v : option string) : list string :=
  match v with
  | Some s => [flag; s]
  | None => []
  end.

(** The command line that names the same operation on the same inputs:
    the name of the tool as the command, and the arguments in the
    positions that [main] reads them from.  A
    positional argument cannot be left out before a later one, so an
    absent name or phone is passed as the empty argument. *)
Definition cli_args (t : ToolRequest) : list string :=
  tool_name t ::
  match t with
  | CreateContact email firstName lastName phone =>
      [email; or_else firstName ""; or_else lastName ""; or_else phone ""]
  | GetContact email => [email]
  | SearchContacts _ => []
  | UpdateContact contactId email firstName lastName phone =>
      contactId ::
        (flag_args "--email" email ++ flag_args "--firstName" firstName ++
         flag_args "--lastName" lastName ++ flag_args "--phone" phone)%list
  | DeleteContact contactId => [contactId]
  | GetLastContacts => []
  end.

(** The argument that [main] checks before it does anything ([!email],
    [!contactId]) is not the empty string. *)
Definition required_present (t : ToolRequest) : bool :=
  match t with
  | CreateContact email _ _ _ => negb (email =? "")
  | GetContact email => negb (email =? "")
  | SearchContacts _ => true
  | UpdateContact contactId _ _ _ _ => negb (contactId =? "")
  | DeleteContact contactId => negb (contactId =? "")
  | GetLastContacts => true
  end.

End Registry.

(** An optional field with the empty string taken for an absent one. *)
Definition drop_empty (v : option string) : option string :=
  match v with
  | Some s => if s =? "" then None else Some s
  | None => None
  end.

(** No key of the object holds the empty string. *)
Definition no_empty_value (o : JsObject) : bool :=
  forallb (fun kv => negb (snd kv =? "")) o.

(** No property mapping carried by the call holds the empty string. *)
Definition sends_no_empty_value (c : RemoteCall) : bool :=
  match c with
  | basicApi_create props => no_empty_value props
  | basicApi_update _ props => no_empty_value props
  | _ => true
  end.

(** ** Reading a printed block back *)

(** The lines of a text, cut at every line feed. *)
Fixpoint lines (s : string) : list string :=
  match s with
  | EmptyString => [EmptyString]
  | String c rest =>
      if Ascii.eqb c (ascii_of_nat 10)
      then EmptyString :: lines rest
      else match lines rest with
           | l :: ls => String c l :: ls
           | [] => [String c EmptyString]
           end
  end.

(** [s] without the leading [p], when it starts with [p]. *)
Fixpoint strip_prefix (p s : string) : option string :=
  match p, s with
  | EmptyString, _ => Some s
  | String a p', String b s' =>
      if Ascii.eqb a b then strip_prefix p' s' else None
  | String _ _, EmptyString => None
  end.

(** The value on the first line that carries the label. *)
Fixpoint labelled (label : string) (ls : list string) : option string :=
  match ls with
  | [] => None
  | l :: rest =>
      match strip_prefix label l with
      | Some v => Some v
      | None => labelled label rest
      end
  end.

(** The string has no line feed in it. *)
Fixpoint no_line_feed (s : string) : bool :=
  match s with
  | EmptyString => true
  | String c rest => negb (Ascii.eqb c (ascii_of_nat 10)) && no_line_feed rest
  end.

Record ParsedContact : Type := {
  parsed_id : string;
  parsed_name : string;
  parsed_email : string;
  parsed_phone : string
}.

(** Modelled from the spec: the repository prints contact blocks and has
    no reader for them; the round trip of the specification needs one.
    The reader follows the fixed layout of the formatter: the value of a
    field is what follows its literal label ([Contact ID:], [Name:],
    [Email:], [Phone:]) and one space on the line that carries it. *)
Definition parse_contact_block (block : string) : option ParsedContact :=
  let ls := lines block in
  match labelled "Contact ID: " ls, labelled "Name: " ls,
        labelled "Email: " ls, labelled "Phone: " ls with
  | Some i, Some n, Some e, Some p =>
      Some {| parsed_id := i; parsed_name := n;
              parsed_email := e; parsed_phone := p |}
  | _, _, _, _ => None
  end.

(** ** The schemas of the tools, and the server in front of the handlers *)

(** [z.string().email()]: the test of an email address is zod's and not
    the repository's.  It is kept as it is given, with the one fact about
    it that the code leans on: the empty string is no email address. *)
Class Zod : Type := {
  is_email : string -> bool;
  is_email_empty : is_email "" = false
}.

(** The third argument of each [server.tool] (lines 30-35, 75-77,
    135-137, 190-196, 235-237 and 267): [z.string()] and
    [z.string().optional()] take any string, [z.string().email()] takes
    an email address, and an optional field may be absent. *)
Definition schema_valid {zod : Zod} (t : ToolRequest) : bool :=
  match t with
  | CreateContact email _ _ _ => is_email email
  | GetContact email => is_email email
  | SearchContacts _ => true
  | UpdateContact _ email _ _ _ =>
      match email with
      | Some e => is_email e
      | None => true
      end
  | DeleteContact _ => true
  | GetLastContacts => true
  end.

(** What the caller of a tool gets back: the result of the handler, or
    the refusal of arguments that the schema does not accept (the
    invalid-parameters error of the protocol, code -32602). *)
Inductive ToolAnswer : Type :=
| Answered (r : CallToolResult)
| InvalidParams.

(** Modelled from the spec: the server of the protocol library, which
    stands between the caller and the handlers and is not in the
    repository.  The specification (4.1) has it that validation occurs
    before the handler runs, and that malformed input is rejected before
    any external call is attempted, with a validation failure that is
    distinct from a remote-call failure. *)
Definition serve_tool_call {host : Host} {zod : Zod} (t : ToolRequest)
  : Prog ToolAnswer :=
  if schema_valid t
  then r <- call_tool t ;; Ret (Answered r)
  else Ret InvalidParams.

(** ** The order that a search asks for *)

Inductive SortDirection : Type := ASCENDING | DESCENDING.

(** Modelled from the spec: the order of the results of a search is the
    work of the remote CRM, which is no part of the repository; the
    request names only the property.  The specification (4.1) has the
    search of get-last-contacts come back sorted by creation date
    ascending: the remote reads an entry of [sorts] that is a bare
    property name as that property, in ascending order. *)
Definition remote_sort (entry : string) : string * SortDirection :=
  (entry, ASCENDING).

(** The order that a search request asks the remote for. *)
Definition requested_order (req : PublicObjectSearchRequest)
  : list (string * SortDirection) :=
  match sorts req with
  | Some entries => map remote_sort entries
  | None => []
  end.

(** ** The label of a command *)

(** The first argument of [console.error] in the [catch] block of the
    branch of [main] that a command selects (lines 352, 393, 411, 442,
    484 and 515); the branches are tried in the order of [dispatch]. *)
Definition command_error_label (command : option string) : string :=
  if is_command command "create-contact" then "Error creating contact:"
  else if is_command command "get-contact" then "Error getting contact:"
  else if is_command command "delete-contact" then "Error deleting contact:"
  else if is_command command "search-contacts"
       then "Error searching contacts:"
  else if is_command command "update-contact" then "Error updating contact:"
  else if is_command command "get-last-contacts"
       then "Error getting last contacts:"
  else "".

(** ** Concrete hosts and worlds, to evaluate the programs *)

(** A host whose dates are the strings they were read from, tagged. *)
Definition plain_host : Host :=
  {| Date := string;
     Date_of_string := fun s => "date(" ++ s ++ ")";
     toLocaleString := fun d => d;
     JSON_stringify := fun o =>
       "{" ++ String.concat ","
                (map (fun kv => fst kv ++ ":" ++ snd kv) o) ++ "}" |}.

(** A stand-in for zod's test: an email address has an at sign in it. *)
Fixpoint has_at_sign (s : string) : bool :=
  match s with
  | EmptyString => false
  | String c rest => Ascii.eqb c "@"%char || has_at_sign rest
  end.

Definition plain_zod : Zod :=
  {| is_email := has_at_sign; is_email_empty := eq_refl |}.

(** The record of the round-trip scenario: all four optional properties,
    no creation date. *)
Definition contact_42 : SimplePublicObject :=
  {| id := "42";
     properties := [("email", Some "a@b.com"); ("firstname", Some "A");
                    ("lastname", Some "B"); ("phone", Some "555")] |}.

(** A record created on a known day, and one whose [createdate] is there
    but empty. *)
Definition contact_created_2024 : SimplePublicObject :=
  {| id := "42"; properties := [("createdate", Some "2024-01-01")] |}.

Definition contact_created_empty : SimplePublicObject :=
  {| id := "42"; properties := [("createdate", Some "")] |}.

(** A request to update two fields of contact 12345. *)
Definition update_12345 : ToolRequest :=
  UpdateContact "12345" None (Some "John") None (Some "+1234567890").

(** What the clock of the sample worlds shows. *)
Definition sample_now : string := "now".

(** A CRM that holds no contact: listings and searches come back empty,
    writes succeed. *)
Definition empty_remote (c : RemoteCall) : Thrown + Response c :=
  match c return Thrown + Response c with
  | basicApi_create props => inr {| id := "1"; properties := [] |}
  | basicApi_getPage _ _ _ _ _ _ => inr {| results := [] |}
  | basicApi_update contactId props =>
      inr {| id := contactId; properties := [] |}
  | basicApi_archive _ => inr tt
  | searchApi_doSearch _ => inr {| results := [] |}
  end.

Definition empty_world : @World plain_host :=
  @Build_World plain_host empty_remote (fun _ => sample_now).

(** A CRM every call to which fails with the thrown value [error]. *)
Definition failing_world (error : Thrown) : @World plain_host :=
  @Build_World plain_host (fun c => inl error) (fun _ => sample_now).

(** A CRM whose listings and searches answer with the contacts [cs]. *)
Definition listing_world (cs : list SimplePublicObject) : @World plain_host :=
  @Build_World plain_host
    (fun c =>
       match c return Thrown + Response c with
       | basicApi_getPage _ _ _ _ _ _ => inr {| results := cs |}
       | searchApi_doSearch _ => inr {| results := cs |}
       | c' => empty_remote c'
       end)
    (fun _ => sample_now).


(** A world whose CRM finds contact 42, and another, for every search. *)
Definition found_world : @World plain_host :=
  listing_world [contact_42; contact_created_2024].

(** ** Notions for the properties of the command line and the listings *)

(** The first argument of [console.error] in the [catch] block of an
    operation; the tool handler and the branch of [main] use the same. *)
Definition error_label (t : ToolRequest) : string :=
  match t with
  | CreateContact _ _ _ _ => "Error creating contact:"
  | GetContact _ => "Error getting contact:"
  | SearchContacts _ => "Error searching contacts:"
  | UpdateContact _ _ _ _ _ => "Error updating contact:"
  | DeleteContact _ => "Error deleting contact:"
  | GetLastContacts => "Error getting last contacts:"
  end.

(** What [main] does before it looks at the command line. *)
Definition startup_log : list Event :=
  [EConnect; EConsole Stderr [LStr "HubSpot MCP Server running on stdio"]].

(** The event writes on the standard output. *)
Definition writes_stdout (e : Event) : bool :=
  match e with
  | EConsole Stdout _ => true
  | _ => false
  end.

(** The event writes on the error stream. *)
Definition writes_stderr (e : Event) : bool :=
  match e with
  | EConsole Stderr _ => true
  | _ => false
  end.

(** The command is one of the six that [main] knows. *)
Definition known_command (command : option string) : bool :=
  is_command command "create-contact" || is_command command "get-contact" ||
  is_command command "delete-contact" ||
  is_command command "search-contacts" ||
  is_command command "update-contact" ||
  is_command command "get-last-contacts".

(** The flag is one of the four that the [switch] of update-contact
    knows. *)
Definition known_flag (flag : string) : bool :=
  (flag =? "--email") || (flag =? "--firstName") || (flag =? "--lastName") ||
  (flag =? "--phone").

(** The key is one of the four contact properties that the code writes. *)
Definition written_key (k : string) : bool :=
  (k =? "email") || (k =? "firstname") || (k =? "lastname") || (k =? "phone").

(** The six lines of the array that [contact_block] joins. *)
Definition contact_lines {host : Host} (contact : SimplePublicObject)
  (createDate : Date) : list string :=
  let props := properties contact in
  [ "Contact ID: " ++ id contact;
    "Name: " ++ js_or (prop props "firstname") "" ++ " " ++
                js_or (prop props "lastname") "";
    "Email: " ++ js_or (prop props "email") "N/A";
    "Phone: " ++ js_or (prop props "phone") "N/A";
    "Created: " ++ toLocaleString createDate;
    "---" ].

(** The blocks of the contacts [cs] in world [w], the first formatted at
    clock reading [tick]: a contact without a usable [createdate] takes
    one reading of the clock, and the next contact sees the clock after
    it. *)
Fixpoint formatted_blocks {host : Host} (w : World)
  (cs : list SimplePublicObject) (tick : nat) : list string :=
  match cs with
  | [] => []
  | c :: rest =>
      contact_block c (settled_date w (properties c) tick) ::
      formatted_blocks w rest (tick + ticks (date_log (properties c)))
  end.

(** The clock readings of formatting the contacts [cs]. *)
Fixpoint clock_reads (cs : list SimplePublicObject) : list Event :=
  match cs with
  | [] => []
  | c :: rest => (date_log (properties c) ++ clock_reads rest)%list
  end.

(** The contacts that make the formatter read the clock. *)
Definition undated (cs : list SimplePublicObject) : list SimplePublicObject :=
  filter (fun c => match js_truthy (prop (properties c) "createdate") with
                   | Some _ => false
                   | None => true
                   end) cs.

(** What the command line writes for the contacts [cs]: the clock
    readings and the six [console.log] lines of each contact in turn. *)
Fixpoint printed_contacts {host : Host} (w : World)
  (cs : list SimplePublicObject) (tick : nat) : list Event :=
  match cs with
  | [] => []
  | c :: rest =>
      (date_log (properties c) ++
       map (fun l => EConsole Stdout [LStr l])
         (firstn 5 (contact_lines c (settled_date w (properties c) tick)) ++
          [("---" ++ LF)%string]) ++
       printed_contacts w rest (tick + ticks (date_log (properties c))))%list
  end.

(** The usage lines of the four commands that need an argument. *)
Definition usage_lines (command : string) : list Event :=
  if command =? "create-contact" then
    [EConsole Stderr
       [LStr "Usage: node build/index.js create-contact [EMAIL] [FIRSTNAME] [LASTNAME] [PHONE]"];
     EConsole Stderr
       [LStr "Example: node build/index.js create-contact john@example.com John Doe +1234567890"]]
  else if command =? "get-contact" then
    [EConsole Stderr [LStr "Usage: node build/index.js get-contact [EMAIL]"];
     EConsole Stderr
       [LStr "Example: node build/index.js get-contact john@example.com"]]
  else if command =? "delete-contact" then
    [EConsole Stderr
       [LStr "Usage: node build/index.js delete-contact [CONTACT_ID]"];
     EConsole Stderr
       [LStr "Example: node build/index.js delete-contact 12345"]]
  else if command =? "update-contact" then
    [EConsole Stderr
       [LStr "Usage: node build/index.js update-contact [CONTACT_ID] --email [EMAIL] --firstName [FIRSTNAME] --lastName [LASTNAME] --phone [PHONE]"];
     EConsole Stderr
       [LStr "Example: node build/index.js update-contact 12345 --email new@example.com --firstName John --lastName Doe --phone +1234567890"]]
  else [].

(** The command reads a required first argument. *)
Definition needs_argument (command : string) : bool :=
  (command =? "create-contact") || (command =? "get-contact") ||
  (command =? "delete-contact") || (command =? "update-contact").


(** The run of a branch of [main] that makes one call, prints one line
    and ends the process: the line and the exit status go by the fate of
    the call. *)
Definition one_call_run {host : Host} (w : World) (c : RemoteCall)
  (label : string) (success : Response c -> string)
  : list Event * Outcome unit :=
  match remote w c with
  | inl error =>
      ([ECall c; EConsole Stderr [LStr label; LStr (error_message error)]],
       Exited 1%Z)
  | inr response =>
      ([ECall c; EConsole Stdout [LStr (success response)]], Exited 0%Z)
  end.

(** The text of the [return] at the end of the [try] block of each
    handler, for the answer of its call. *)
Definition tool_success_text {host : Host} (w : World) (t : ToolRequest)
  : Response (remote_call t) -> string :=
  match t return Response (remote_call t) -> string with
  | CreateContact email firstName lastName phone => fun response =>
      "Contact created successfully:" ++ LF ++
      "ID: " ++ id response ++ LF ++
      "Email: " ++ email ++ LF ++
      "Name: " ++ or_else firstName "" ++ " " ++ or_else lastName ""
  | GetContact email => fun searchResponse =>
      match results searchResponse with
      | [] => "No contact found with email: " ++ email
      | contact :: _ => contact_found_text contact
      end
  | SearchContacts _ => fun response =>
      "Last 10 contacts:" ++ LF ++ LF ++
      String.concat (LF ++ LF) (formatted_blocks w (results response) 0)
  | UpdateContact contactId email firstName lastName phone => fun _ =>
      contact_updated_text contactId
        (update_properties email firstName lastName phone)
  | DeleteContact contactId => fun _ =>
      "Contact with ID " ++ contactId ++ " was successfully deleted."
  | GetLastContacts => fun response =>
      "Last 2 contacts (sorted by creation date):" ++ LF ++ LF ++
      String.concat (LF ++ LF) (formatted_blocks w (results response) 0)
  end.

(** The clock readings of a handler for the answer of its call: those of
    the formatter, in the two listings. *)
Definition tool_clock_reads (t : ToolRequest)
  : Response (remote_call t) -> list Event :=
  match t return Response (remote_call t) -> list Event with
  | SearchContacts _ => fun response => clock_reads (results response)
  | GetLastContacts => fun response => clock_reads (results response)
  | _ => fun _ => []
  end.

(** A run that made exactly one client call and ended the process, with
    status 0 when the call resolved and status 1 when it was rejected. *)
Definition ends_after_one_call {host : Host} (w : World)
  (r : list Event * Outcome unit) : Prop :=
  exists c : RemoteCall,
    calls (fst r) = [c] /\
    snd r = match remote w c with
            | inl _ => Exited 1%Z
            | inr _ => Exited 0%Z
            end.

(** A run that made no client call and ended the process with status
    1. *)
Definition ends_without_call (r : list Event * Outcome unit) : Prop :=
  calls (fst r) = [] /\ snd r = Exited 1%Z.

(** The key that a flag of update-contact writes: the table of the
    [switch] of lines 464-477. *)
Definition flag_key (flag : string) : option string :=
  if flag =? "--email" then Some "email"
  else if flag =? "--firstName" then Some "firstname"
  else if flag =? "--lastName" then Some "lastname"
  else if flag =? "--phone" then Some "phone"
  else None.

(** * Properties *)

(** ** The programs on small inputs *)

Example create_from_command_line :
  run empty_world
    (main ["node"; "build/index.js"; "create-contact"; "a@b.com"; ""; "Doe"]) 0
  = ([EConnect;
      EConsole Stderr [LStr "HubSpot MCP Server running on stdio"];
      ECall (basicApi_create [("email", "a@b.com"); ("lastname", "Doe")]);
      EConsole Stdout
        [LStr ("Contact created successfully:" ++ LF ++ "ID: 1" ++ LF ++
               "Email: a@b.com" ++ LF ++ "Name:  Doe")]],
     Exited 0%Z).
Proof. reflexivity. Qed.

Example update_from_command_line :
  calls_of empty_world
    (main ["node"; "build/index.js"; "update-contact"; "7"; "--phone"; "1";
           "--email"; "x@y.z"; "--bogus"; "3"; "--lastName"])
  = [basicApi_update "7" [("phone", "1"); ("email", "x@y.z")]].
Proof. reflexivity. Qed.

Example search_lists_two_contacts :
  run (listing_world [contact_42; contact_created_2024])
    (search_contacts_tool (Some "anything")) 0
  = ([ECall (basicApi_getPage 10%Z None (Some list_properties) None None
               false);
      ENewDate],
     Returned
       (text_content
          ("Last 10 contacts:" ++ LF ++ LF ++
           "Contact ID: 42" ++ LF ++ "Name: A B" ++ LF ++
           "Email: a@b.com" ++ LF ++ "Phone: 555" ++ LF ++
           "Created: now" ++ LF ++ "---" ++ LF ++ LF ++
           "Contact ID: 42" ++ LF ++ "Name:  " ++ LF ++
           "Email: N/A" ++ LF ++ "Phone: N/A" ++ LF ++
           "Created: date(2024-01-01)" ++ LF ++ "---"))).
Proof. reflexivity. Qed.

Example delete_fails_on_command_line :
  run (failing_world (ThrownObject (JStr "boom")))
    (main ["node"; "build/index.js"; "delete-contact"; "9"]) 0
  = ([EConnect;
      EConsole Stderr [LStr "HubSpot MCP Server running on stdio"];
      ECall (basicApi_archive "9");
      EConsole Stderr [LStr "Error deleting contact:"; LStr "boom"]],
     Exited 1%Z).
Proof. reflexivity. Qed.

(** ** Laws of the interpreter *)

Section RunLaws.
Context {host : Host}.
Variable w : World.

Lemma ticks_app (l1 l2 : list Event) :
  ticks (l1 ++ l2)%list = ticks l1 + ticks l2.
Proof.
  induction l1 as [|e l1 IH]; [reflexivity|].
  destruct e; simpl; rewrite ?IH; reflexivity.
Qed.

Lemma calls_app (l1 l2 : list Event) :
  calls (l1 ++ l2)%list = (calls l1 ++ calls l2)%list.
Proof.
  induction l1 as [|e l1 IH]; [reflexivity|].
  destruct e; simpl; rewrite ?IH; reflexivity.
Qed.

(** Sequencing: the second program starts where the first returned, and
    does not start when the first threw or ended the process. *)
Lemma run_bind {A B : Type} (p : Prog A) (f : A -> Prog B) (tick : nat) :
  run w (bind p f) tick =
  match run w p tick with
  | (log, Returned a) =>
      let (log', out) := run w (f a) (tick + ticks log) in
      ((log ++ log')%list, out)
  | (log, Rejected error) => (log, Rejected error)
  | (log, Exited code) => (log, Exited code)
  end.
Proof.
  revert tick.
  induction p as [a|error|c k IH|s args k IH|k IH|k IH|code]; intros tick;
    simpl.
  - rewrite Nat.add_0_r. destruct (run w (f a) tick); reflexivity.
  - reflexivity.
  - rewrite IH. destruct (run w (k (remote w c)) tick) as [log [a|e|z]];
      simpl; try reflexivity.
    destruct (run w (f a) (tick + ticks log)); reflexivity.
  - rewrite IH. destruct (run w k tick) as [log [a|e|z]];
      simpl; try reflexivity.
    destruct (run w (f a) (tick + ticks log)); reflexivity.
  - rewrite IH.
    destruct (run w (k (clock w tick)) (S tick)) as [log [a|e|z]];
      simpl; try reflexivity.
    rewrite Nat.add_succ_r.
    destruct (run w (f a) (S (tick + ticks log))); reflexivity.
  - rewrite IH. destruct (run w k tick) as [log [a|e|z]];
      simpl; try reflexivity.
    destruct (run w (f a) (tick + ticks log)); reflexivity.
  - reflexivity.
Qed.

(** [try]/[catch]: the handler runs exactly when the body threw. *)
Lemma run_try_catch {A : Type} (body : Prog A) (handler : Thrown -> Prog A)
  (tick : nat) :
  run w (try_catch body handler) tick =
  match run w body tick with
  | (log, Rejected error) =>
      let (log', out) := run w (handler error) (tick + ticks log) in
      ((log ++ log')%list, out)
  | (log, Returned a) => (log, Returned a)
  | (log, Exited code) => (log, Exited code)
  end.
Proof.
  revert tick.
  induction body as [a|error|c k IH|s args k IH|k IH|k IH|code];
    intros tick; simpl.
  - reflexivity.
  - rewrite Nat.add_0_r. destruct (run w (handler error) tick); reflexivity.
  - rewrite IH. destruct (run w (k (remote w c)) tick) as [log [a|e|z]];
      simpl; try reflexivity.
    destruct (run w (handler e) (tick + ticks log)); reflexivity.
  - rewrite IH. destruct (run w k tick) as [log [a|e|z]];
      simpl; try reflexivity.
    destruct (run w (handler e) (tick + ticks log)); reflexivity.
  - rewrite IH.
    destruct (run w (k (clock w tick)) (S tick)) as [log [a|e|z]];
      simpl; try reflexivity.
    rewrite Nat.add_succ_r.
    destruct (run w (handler e) (S (tick + ticks log))); reflexivity.
  - rewrite IH. destruct (run w k tick) as [log [a|e|z]];
      simpl; try reflexivity.
    destruct (run w (handler e) (tick + ticks log)); reflexivity.
  - reflexivity.
Qed.

(** [await]: one call in the log; the promise's fate decides the rest. *)
Lemma run_await (c : RemoteCall) (tick : nat) :
  run w (await c) tick =
  match remote w c with
  | inl error => ([ECall c], Rejected error)
  | inr response => ([ECall c], Returned response)
  end.
Proof. simpl. destruct (remote w c); reflexivity. Qed.

End RunLaws.

(** Unfolds the interpreter over [try]/[catch], sequencing and [await]. *)
Ltac run_steps :=
  rewrite ?run_try_catch, ?run_bind, ?run_await.

(** ** The formatter of the listings *)

Section Formatter.
Context {host : Host}.
Variable w : World.

Lemma run_createDate_of (props : list (string * option string)) (tick : nat) :
  run w (createDate_of props) tick =
  (date_log props, Returned (settled_date w props tick)).
Proof.
  unfold createDate_of, date_log, settled_date.
  destruct (js_truthy (prop props "createdate")); reflexivity.
Qed.

Lemma calls_date_log (props : list (string * option string)) :
  calls (date_log props) = [].
Proof. unfold date_log. destruct (js_truthy _); reflexivity. Qed.

(** Formatting a contact never fails and touches nothing but the clock. *)
Lemma run_format_contact (contact : SimplePublicObject) (tick : nat) :
  run w (format_contact contact) tick =
  (date_log (properties contact),
   Returned
     (contact_block contact (settled_date w (properties contact) tick))).
Proof.
  unfold format_contact. rewrite run_bind, run_createDate_of. simpl.
  rewrite app_nil_r. reflexivity.
Qed.

Lemma run_mapM_format (cs : list SimplePublicObject) (tick : nat) :
  exists log blocks,
    run w (mapM format_contact cs) tick = (log, Returned blocks) /\
    calls log = [] /\ length blocks = length cs.
Proof.
  revert tick. induction cs as [|c cs IH]; intros tick.
  - exists [], []. repeat split.
  - simpl mapM. rewrite run_bind, run_format_contact.
    destruct (IH (tick + ticks (date_log (properties c))))
      as (log & blocks & Hrun & Hcalls & Hlen).
    rewrite run_bind, Hrun. simpl.
    eexists; eexists. split; [reflexivity|]. split.
    + rewrite !calls_app, calls_date_log, Hcalls. reflexivity.
    + simpl. rewrite Hlen. reflexivity.
Qed.

(** Printing a contact never fails either, and calls nothing. *)
Lemma run_print_contact (contact : SimplePublicObject) (tick : nat) :
  exists log,
    run w (print_contact contact) tick = (log, Returned tt) /\
    calls log = [].
Proof.
  unfold print_contact. rewrite run_bind, run_createDate_of. simpl.
  eexists. split; [reflexivity|].
  rewrite calls_app, calls_date_log. reflexivity.
Qed.

Lemma run_forEach_print (cs : list SimplePublicObject) (tick : nat) :
  exists log,
    run w (forEach print_contact cs) tick = (log, Returned tt) /\
    calls log = [].
Proof.
  revert tick. induction cs as [|c cs IH]; intros tick.
  - exists []. split; reflexivity.
  - simpl forEach. rewrite run_bind.
    destruct (run_print_contact c tick) as (log1 & H1 & C1). rewrite H1.
    destruct (IH (tick + ticks log1)) as (log2 & H2 & C2). rewrite H2.
    eexists. split; [reflexivity|].
    rewrite calls_app, C1, C2. reflexivity.
Qed.

End Formatter.

(** ** The tool handlers *)

Section Handlers.
Context {host : Host}.
Variable w : World.

(** A rejected call: the handler logs the error and returns the text of
    its [catch] block. *)
Lemma run_tool_rejected (t : ToolRequest) (error : Thrown) :
  remote w (remote_call t) = inl error ->
  exists label,
    run w (call_tool t) 0 =
    ([ECall (remote_call t); EConsole Stderr [LStr label; LErr error]],
     Returned (text_content (failure_prefix t ++ error_message error))).
Proof.
  intros H.
  destruct t; simpl in H; simpl call_tool;
    [ unfold create_contact_tool | unfold get_contact_tool
    | unfold search_contacts_tool | unfold update_contact_tool
    | unfold delete_contact_tool | unfold get_last_contacts_tool ];
    run_steps; rewrite H; simpl; eexists; reflexivity.
Qed.

(** Every handler returns, whatever the remote does. *)
Lemma run_tool_returns (t : ToolRequest) :
  exists log r,
    run w (call_tool t) 0 = (log, Returned r) /\
    calls log = [remote_call t].
Proof.
  destruct (remote w (remote_call t)) as [error|response] eqn:H.
  { destruct (run_tool_rejected t H) as [label Hrun].
    rewrite Hrun. eexists; eexists. split; reflexivity. }
  destruct t; simpl in H, response; simpl call_tool.
  - unfold create_contact_tool. run_steps. rewrite H. simpl.
    eexists; eexists. split; reflexivity.
  - unfold get_contact_tool. run_steps. rewrite H. simpl.
    destruct (results response); simpl; eexists; eexists; split; reflexivity.
  - unfold search_contacts_tool. run_steps. rewrite H. simpl.
    run_steps.
    destruct (run_mapM_format w (results response) 0)
      as (log & blocks & Hrun & Hcalls & _).
    rewrite Hrun. simpl. eexists; eexists. split; [reflexivity|].
    simpl. rewrite calls_app, Hcalls. reflexivity.
  - unfold update_contact_tool. run_steps. rewrite H. simpl.
    eexists; eexists. split; reflexivity.
  - unfold delete_contact_tool. run_steps. rewrite H. simpl.
    eexists; eexists. split; reflexivity.
  - unfold get_last_contacts_tool. run_steps. rewrite H. simpl.
    run_steps.
    destruct (run_mapM_format w (results response) 0)
      as (log & blocks & Hrun & Hcalls & _).
    rewrite Hrun. simpl. eexists; eexists. split; [reflexivity|].
    simpl. rewrite calls_app, Hcalls. reflexivity.
Qed.

Lemma calls_of_tool (t : ToolRequest) :
  calls_of w (call_tool t) = [remote_call t].
Proof.
  unfold calls_of.
  destruct (run_tool_returns t) as (log & r & Hrun & Hcalls).
  rewrite Hrun. exact Hcalls.
Qed.

End Handlers.

(** ** The command line *)

Section CommandLineFacts.
Context {host : Host}.
Variable w : World.

(** An empty positional argument adds no key, like a missing one. *)
Lemma set_if_truthy_or_else (v : option string) (k : string) (o : JsObject) :
  set_if_truthy (Some (or_else v "")) k o = set_if_truthy v k o.
Proof. destruct v as [[|c s]|]; reflexivity. Qed.

(** The flags of [cli_args], read back by the loop of [main]. *)
Lemma parse_update_args_flags (email firstName lastName phone : option string) :
  parse_update_args
    (flag_args "--email" email ++ flag_args "--firstName" firstName ++
     flag_args "--lastName" lastName ++ flag_args "--phone" phone)%list [] =
  update_properties email firstName lastName phone.
Proof.
  destruct email as [[|c1 s1]|], firstName as [[|c2 s2]|],
    lastName as [[|c3 s3]|], phone as [[|c4 s4]|]; reflexivity.
Qed.

(** [main] connects, announces itself, and runs the branch of the
    command. *)
Lemma run_main (node script : string) (rest : list string) :
  run w (main (node :: script :: rest)) 0 =
  let (log, out) := run w (dispatch (nth_error rest 0) (tl rest)) 0 in
  (EConnect :: EConsole Stderr [LStr "HubSpot MCP Server running on stdio"]
     :: log, out).
Proof.
  unfold main. run_steps.
  change (run w server_connect 0) with ([EConnect], @Returned unit tt).
  cbv beta iota. run_steps.
  change (run w (console_error
                   [LStr "HubSpot MCP Server running on stdio"]) (0 + ticks [EConnect]))
    with ([EConsole Stderr [LStr "HubSpot MCP Server running on stdio"]],
          @Returned unit tt).
  cbv beta iota.
  replace (nth_error (node :: script :: rest) 2) with (nth_error rest 0)
    by reflexivity.
  replace (skipn 3 (node :: script :: rest)) with (tl rest)
    by (destruct rest; reflexivity).
  destruct (run w (dispatch (nth_error rest 0) (tl rest)) _) as [log out].
  reflexivity.
Qed.

(** The missing required argument: two lines of usage, exit status 1. *)
Lemma run_usage_exit {A : Type} (usage example : string) (tick : nat) :
  run w (@usage_exit host A usage example) tick =
  ([EConsole Stderr [LStr usage]; EConsole Stderr [LStr example]],
   Exited 1%Z).
Proof. reflexivity. Qed.

Lemma calls_cli_create_contact (email : string) (args : list string) :
  (email =? "") = false ->
  calls_of w (cli_create_contact (email :: args)) =
  [basicApi_create
     (create_properties email (nth_error args 0) (nth_error args 1)
        (nth_error args 2))].
Proof.
  intros H. unfold calls_of, cli_create_contact.
  cbn [nth_error guard_truthy]. rewrite H. run_steps.
  destruct (remote w _); reflexivity.
Qed.

Lemma calls_cli_get_contact (email : string) (args : list string) :
  (email =? "") = false ->
  calls_of w (cli_get_contact (email :: args)) =
  [searchApi_doSearch (get_contact_request email)].
Proof.
  intros H. unfold calls_of, cli_get_contact.
  cbn [nth_error guard_truthy]. rewrite H. run_steps.
  destruct (remote w _) as [error|response]; [reflexivity|].
  cbv beta iota. destruct (results response); reflexivity.
Qed.

Lemma calls_cli_delete_contact (contactId : string) (args : list string) :
  (contactId =? "") = false ->
  calls_of w (cli_delete_contact (contactId :: args)) =
  [basicApi_archive contactId].
Proof.
  intros H. unfold calls_of, cli_delete_contact.
  cbn [nth_error guard_truthy]. rewrite H. run_steps.
  destruct (remote w _); reflexivity.
Qed.

Lemma calls_cli_update_contact (contactId : string) (args : list string) :
  (contactId =? "") = false ->
  calls_of w (cli_update_contact (contactId :: args)) =
  [basicApi_update contactId (parse_update_args args [])].
Proof.
  intros H. unfold calls_of, cli_update_contact.
  cbn [nth_error guard_truthy tl]. rewrite H. run_steps.
  destruct (remote w _); reflexivity.
Qed.

Ltac run_forEach :=
  match goal with
  | |- context [run w (forEach print_contact ?l) ?t] =>
      let log := fresh "log" in
      let Hrun := fresh "Hrun" in
      let Hcalls := fresh "Hcalls" in
      destruct (run_forEach_print w l t) as (log & Hrun & Hcalls);
      rewrite Hrun; simpl; rewrite ?calls_app, Hcalls
  end.

Lemma calls_cli_search_contacts :
  calls_of w cli_search_contacts = [search_contacts_call].
Proof.
  unfold calls_of, cli_search_contacts. run_steps.
  destruct (remote w _) as [error|response]; [reflexivity|].
  simpl. run_steps. run_forEach. reflexivity.
Qed.

Lemma calls_cli_get_last_contacts :
  calls_of w cli_get_last_contacts =
  [searchApi_doSearch get_last_contacts_request].
Proof.
  unfold calls_of, cli_get_last_contacts. run_steps.
  destruct (remote w _) as [error|response]; [reflexivity|].
  simpl. run_steps. run_forEach. reflexivity.
Qed.

Lemma calls_of_main (node script : string) (rest : list string) :
  calls_of w (main (node :: script :: rest)) =
  calls_of w (dispatch (nth_error rest 0) (tl rest)).
Proof.
  unfold calls_of. rewrite run_main.
  destruct (run w (dispatch (nth_error rest 0) (tl rest)) 0); reflexivity.
Qed.

(** A falsy required argument: usage, and no call. *)
Lemma guard_truthy_falsy {A : Type} (v : option string) (usage : Prog A)
  (rest : string -> Prog A) :
  truthy v = false -> guard_truthy v usage rest = usage.
Proof.
  destruct v as [s|]; [|reflexivity]. simpl.
  destruct (s =? ""); [reflexivity|discriminate].
Qed.

End CommandLineFacts.

(** ** Property mappings *)

Section Mappings.

Lemma obj_get_set (k v : string) (o : JsObject) (k' : string) :
  obj_get (obj_set k v o) k' = if k' =? k then Some v else obj_get o k'.
Proof.
  induction o as [|[k0 v0] o IH]; simpl.
  - reflexivity.
  - destruct (k =? k0) eqn:E; simpl.
    + apply String.eqb_eq in E. subst k0.
      destruct (k' =? k); reflexivity.
    + rewrite IH. destruct (k' =? k0) eqn:E0; [|reflexivity].
      apply String.eqb_eq in E0. subst k0.
      rewrite String.eqb_sym, E. reflexivity.
Qed.

Lemma obj_get_set_if_truthy (v : option string) (k : string) (o : JsObject)
  (k' : string) :
  obj_get (set_if_truthy v k o) k' =
  match drop_empty v with
  | Some s => if k' =? k then Some s else obj_get o k'
  | None => obj_get o k'
  end.
Proof.
  destruct v as [s|]; simpl; [|reflexivity].
  destruct (s =? ""); [reflexivity|apply obj_get_set].
Qed.

Lemma drop_empty_Some (v : option string) (s : string) :
  drop_empty v = Some s -> v = Some s /\ s <> "".
Proof.
  destruct v as [x|]; simpl; [|discriminate].
  destruct (x =? "") eqn:E; [discriminate|].
  intros H. injection H as ->. split; [reflexivity|].
  intros ->. discriminate.
Qed.

(** A key read from the object after [if (v) o[k] = v;] was either just
    written from a supplied [v], or was there before. *)
Lemma obj_get_set_if_truthy_inv (v : option string) (k : string)
  (o : JsObject) (k' x : string) :
  obj_get (set_if_truthy v k o) k' = Some x ->
  (k' = k /\ v = Some x) \/ obj_get o k' = Some x.
Proof.
  rewrite obj_get_set_if_truthy.
  destruct (drop_empty v) as [s|] eqn:E; [|tauto].
  apply drop_empty_Some in E as [-> _].
  destruct (k' =? k) eqn:K; [|tauto].
  apply String.eqb_eq in K. intros H. injection H as ->. tauto.
Qed.

Lemma set_if_truthy_drop_empty (v : option string) (k : string)
  (o : JsObject) :
  set_if_truthy (drop_empty v) k o = set_if_truthy v k o.
Proof.
  destruct v as [s|]; simpl; [|reflexivity].
  destruct (s =? "") eqn:E; simpl; rewrite ?E; reflexivity.
Qed.

Lemma or_else_drop_empty (v : option string) (d : string) :
  or_else (drop_empty v) d = or_else v d.
Proof.
  destruct v as [s|]; simpl; [|reflexivity].
  destruct (s =? "") eqn:E; simpl; rewrite ?E; reflexivity.
Qed.

Lemma no_empty_value_set (k v : string) (o : JsObject) :
  (v =? "") = false -> no_empty_value o = true ->
  no_empty_value (obj_set k v o) = true.
Proof.
  intros Hv. induction o as [|[k0 v0] o IH]; simpl.
  - rewrite Hv. reflexivity.
  - intros H. apply andb_true_iff in H as [H0 H1].
    destruct (k =? k0); simpl.
    + rewrite Hv, H1. reflexivity.
    + rewrite H0, (IH H1). reflexivity.
Qed.

Lemma no_empty_value_set_if_truthy (v : option string) (k : string)
  (o : JsObject) :
  no_empty_value o = true -> no_empty_value (set_if_truthy v k o) = true.
Proof.
  intros H. destruct v as [s|]; simpl; [|exact H].
  destruct (s =? "") eqn:E; [exact H|].
  apply no_empty_value_set; assumption.
Qed.

Lemma no_empty_value_switch_flag (flag value : string) (o : JsObject) :
  (value =? "") = false -> no_empty_value o = true ->
  no_empty_value (switch_flag flag value o) = true.
Proof.
  intros Hv H. unfold switch_flag.
  repeat match goal with
         | |- context [if ?b then _ else _] => destruct b
         end;
    try apply no_empty_value_set; assumption.
Qed.

(** The loop of [main] keeps empty strings out of the mapping; shown for
    a list and for the list with one more argument in front, since the
    loop reads two at a time. *)
Lemma no_empty_value_parse_update_args (updateArgs : list string) :
  (forall o, no_empty_value o = true ->
             no_empty_value (parse_update_args updateArgs o) = true) /\
  (forall a o, no_empty_value o = true ->
               no_empty_value (parse_update_args (a :: updateArgs) o) = true).
Proof.
  induction updateArgs as [|b rest [IH0 IH1]].
  - split; intros; assumption.
  - split; [exact (IH1 b)|].
    intros a o H. simpl. apply IH0.
    destruct (b =? "") eqn:E; [exact H|].
    apply no_empty_value_switch_flag; assumption.
Qed.

Lemma no_empty_value_update_properties
  (email firstName lastName phone : option string) :
  no_empty_value (update_properties email firstName lastName phone) = true.
Proof.
  unfold update_properties.
  repeat apply no_empty_value_set_if_truthy. reflexivity.
Qed.

Lemma no_empty_value_create_properties (email : string)
  (firstName lastName phone : option string) :
  no_empty_value (create_properties email firstName lastName phone) =
  negb (email =? "").
Proof.
  destruct firstName as [[|c1 s1]|], lastName as [[|c2 s2]|],
    phone as [[|c3 s3]|]; cbn; destruct (email =? ""); reflexivity.
Qed.

End Mappings.

(** * The claims *)

(** The command line of a request whose required argument is there:
    [main] issues the call of the handler. *)
Lemma calls_main_cli_args {host : Host} (w : World)
  (node script : string) (t : ToolRequest) :
  required_present t = true ->
  calls_of w (main (node :: script :: cli_args t)) = calls_of w (call_tool t)
  /\ calls_of w (call_tool t) = [remote_call t].
Proof.
  intros H. split; [|apply calls_of_tool].
  rewrite calls_of_tool, calls_of_main.
  destruct t; simpl in H; try apply negb_true_iff in H;
    cbn -[cli_create_contact cli_get_contact cli_delete_contact
          cli_search_contacts cli_update_contact cli_get_last_contacts
          calls_of create_properties update_properties get_contact_request
          search_contacts_call get_last_contacts_request].
  - rewrite calls_cli_create_contact by exact H.
    unfold create_properties. cbn [nth_error].
    rewrite !set_if_truthy_or_else. reflexivity.
  - apply calls_cli_get_contact. exact H.
  - apply calls_cli_search_contacts.
  - rewrite calls_cli_update_contact by exact H.
    rewrite parse_update_args_flags. reflexivity.
  - apply calls_cli_delete_contact. exact H.
  - apply calls_cli_get_last_contacts.
Qed.

(** C2.  The update-contact handler always issues the update call, and
    the mapping it sends has a key only for a field of the request that
    was supplied, with the supplied value; with no optional field the
    mapping is empty and the call is issued all the same. *)
Theorem update_sends_only_supplied_fields {host : Host} (w : World)
  (contactId : string) (email firstName lastName phone : option string) :
  calls_of w (update_contact_tool contactId email firstName lastName phone) =
    [basicApi_update contactId
       (update_properties email firstName lastName phone)]
  /\ (forall k v,
        obj_get (update_properties email firstName lastName phone) k = Some v ->
        (k = "email" /\ email = Some v) \/
        (k = "firstname" /\ firstName = Some v) \/
        (k = "lastname" /\ lastName = Some v) \/
        (k = "phone" /\ phone = Some v))
  /\ calls_of w (update_contact_tool contactId None None None None) =
       [basicApi_update contactId []].
Proof.
  split; [|split].
  - apply (calls_of_tool w
             (UpdateContact contactId email firstName lastName phone)).
  - intros k v H. unfold update_properties in H. cbv zeta in H.
    apply obj_get_set_if_truthy_inv in H as [H|H]; [tauto|].
    apply obj_get_set_if_truthy_inv in H as [H|H]; [tauto|].
    apply obj_get_set_if_truthy_inv in H as [H|H]; [tauto|].
    apply obj_get_set_if_truthy_inv in H as [H|H]; [tauto|].
    discriminate H.
  - apply (calls_of_tool w (UpdateContact contactId None None None None)).
Qed.

(** C3.  No match is not a failure.  When the search of get-contact comes
    back with no result the handler returns the text that no contact was
    found with that email; when the page of search-contacts or the search
    of get-last-contacts comes back empty the handler returns its heading
    followed by an empty list.  None of these is a failure text. *)
Theorem zero_results_is_success {host : Host} (w : World) :
  (forall (email : string) (r : Collection),
      remote w (searchApi_doSearch (get_contact_request email)) = inr r ->
      results r = [] ->
      run w (get_contact_tool email) 0 =
        ([ECall (searchApi_doSearch (get_contact_request email))],
         Returned (text_content ("No contact found with email: " ++ email)))
      /\ is_failure (text_content ("No contact found with email: " ++ email))
         = false)
  /\ (forall (query : option string) (r : Collection),
      remote w search_contacts_call = inr r ->
      results r = [] ->
      run w (search_contacts_tool query) 0 =
        ([ECall search_contacts_call],
         Returned (text_content ("Last 10 contacts:" ++ LF ++ LF)))
      /\ is_failure (text_content ("Last 10 contacts:" ++ LF ++ LF)) = false)
  /\ (forall r : Collection,
      remote w (searchApi_doSearch get_last_contacts_request) = inr r ->
      results r = [] ->
      run w get_last_contacts_tool 0 =
        ([ECall (searchApi_doSearch get_last_contacts_request)],
         Returned
           (text_content
              ("Last 2 contacts (sorted by creation date):" ++ LF ++ LF)))
      /\ is_failure
           (text_content
              ("Last 2 contacts (sorted by creation date):" ++ LF ++ LF))
         = false).
Proof.
  split; [|split].
  - intros email r Hr Hnone. split; [|reflexivity].
    unfold get_contact_tool. run_steps. rewrite Hr. cbv beta iota.
    rewrite Hnone. reflexivity.
  - intros query r Hr Hnone. split; [|reflexivity].
    unfold search_contacts_tool. run_steps. rewrite Hr. cbv beta iota.
    rewrite Hnone. reflexivity.
  - intros r Hr Hnone. split; [|reflexivity].
    unfold get_last_contacts_tool. run_steps. rewrite Hr. cbv beta iota.
    rewrite Hnone. reflexivity.
Qed.

(** C4.  The search-contacts handler does the same whatever its query:
    two invocations differ in nothing, and the one call issued is the page
    fetch with limit 10 and no filter. *)
Theorem search_contacts_ignores_query {host : Host} (w : World)
  (query1 query2 : option string) :
  run w (search_contacts_tool query1) 0 = run w (search_contacts_tool query2) 0
  /\ calls_of w (search_contacts_tool query1) =
       [basicApi_getPage 10%Z None
          (Some ["firstname"; "lastname"; "email"; "company"; "phone";
                 "createdate"])
          None None false].
Proof.
  split; [reflexivity|].
  apply (calls_of_tool w (SearchContacts query1)).
Qed.

(** C5.  Every tool handler returns: nothing it does is rethrown to the
    server.  When the client call is rejected the handler returns the
    failure text of its [catch] block with the message of the error, and
    with the words [Unknown error] when the error has no message. *)
Theorem remote_error_becomes_failure_result {host : Host} (w : World)
  (t : ToolRequest) :
  (exists r, outcome_of w (call_tool t) = Returned r)
  /\ (forall error : Thrown,
        remote w (remote_call t) = inl error ->
        outcome_of w (call_tool t) =
          Returned (text_content (failure_prefix t ++ error_message error))
        /\ is_failure
             (text_content (failure_prefix t ++ error_message error)) = true
        /\ (optional_message error = JUndefined ->
            outcome_of w (call_tool t) =
              Returned (text_content (failure_prefix t ++ "Unknown error")))).
Proof.
  split.
  - destruct (run_tool_returns w t) as (log & r & Hrun & _).
    exists r. unfold outcome_of. rewrite Hrun. reflexivity.
  - intros error Herr.
    destruct (run_tool_rejected w t Herr) as [label Hrun].
    assert (Hout : outcome_of w (call_tool t) =
                   Returned (text_content
                               (failure_prefix t ++ error_message error))).
    { unfold outcome_of. rewrite Hrun. reflexivity. }
    split; [exact Hout|]. split.
    + destruct t; reflexivity.
    + intros Hmsg. rewrite Hout. unfold error_message. rewrite Hmsg.
      reflexivity.
Qed.

(** C6.  The get-last-contacts handler, and its command-line twin, issue
    one search whose request has no filter group, limit 2, and the sort
    key [createdate] alone: the order asked of the remote is creation
    date, ascending. *)
Theorem get_last_contacts_request_shape {host : Host} (w : World) :
  calls_of w get_last_contacts_tool =
    [searchApi_doSearch get_last_contacts_request]
  /\ calls_of w cli_get_last_contacts =
    [searchApi_doSearch get_last_contacts_request]
  /\ filterGroups get_last_contacts_request = []
  /\ limit get_last_contacts_request = 2%Z
  /\ sorts get_last_contacts_request = Some ["createdate"]
  /\ requested_order get_last_contacts_request = [("createdate", ASCENDING)].
Proof.
  split; [apply (calls_of_tool w GetLastContacts)|].
  split; [apply calls_cli_get_last_contacts|].
  repeat split.
Qed.

(** C7.  [create-contact] on the command line without an email (none, or
    an empty one): after the server's start-up line, the two usage lines
    go to the error stream, the process exits with status 1, and no
    client call is made. *)
Theorem cli_create_contact_without_email {host : Host} (w : World)
  (node script : string) (args : list string) :
  truthy (nth_error args 0) = false ->
  run w (main (node :: script :: "create-contact" :: args)) 0 =
    ([EConnect;
      EConsole Stderr [LStr "HubSpot MCP Server running on stdio"];
      EConsole Stderr
        [LStr "Usage: node build/index.js create-contact [EMAIL] [FIRSTNAME] [LASTNAME] [PHONE]"];
      EConsole Stderr
        [LStr "Example: node build/index.js create-contact john@example.com John Doe +1234567890"]],
     Exited 1%Z)
  /\ calls_of w (main (node :: script :: "create-contact" :: args)) = [].
Proof.
  intros H.
  assert (Hrun : run w (dispatch (Some "create-contact") args) 0 =
                 ([EConsole Stderr
                     [LStr "Usage: node build/index.js create-contact [EMAIL] [FIRSTNAME] [LASTNAME] [PHONE]"];
                   EConsole Stderr
                     [LStr "Example: node build/index.js create-contact john@example.com John Doe +1234567890"]],
                  Exited 1%Z)).
  { change (dispatch (Some "create-contact") args)
      with (cli_create_contact args).
    unfold cli_create_contact. rewrite guard_truthy_falsy by exact H.
    apply run_usage_exit. }
  split.
  - rewrite run_main. cbn [nth_error tl]. rewrite Hrun. reflexivity.
  - rewrite calls_of_main. cbn [nth_error tl]. unfold calls_of.
    rewrite Hrun. reflexivity.
Qed.

(** C8, as amended.  The formatter of the two listings renders as
    [Created:] the parsed [createdate] of the record when that property
    is a non-empty string, and the time of the clock at that moment when
    the property is missing, null or the empty string. *)
Theorem created_line_of_block {host : Host} (w : World)
  (contact : SimplePublicObject) (tick : nat) :
  (forall s : string,
      prop (properties contact) "createdate" = JStr s -> s <> "" ->
      run w (format_contact contact) tick =
        ([], Returned (contact_block contact (Date_of_string s))))
  /\ (prop (properties contact) "createdate" = JUndefined \/
      prop (properties contact) "createdate" = JNull \/
      prop (properties contact) "createdate" = JStr "" ->
      run w (format_contact contact) tick =
        ([ENewDate], Returned (contact_block contact (clock w tick)))).
Proof.
  rewrite run_format_contact. unfold date_log, settled_date. split.
  - intros s Hs Hne. rewrite Hs. simpl.
    destruct (s =? "") eqn:E; [|reflexivity].
    apply String.eqb_eq in E. contradiction.
  - intros [H|[H|H]]; rewrite H; reflexivity.
Qed.

(** The handlers and the branches of [main] on an optional field that is
    the empty string: the tool handlers are the same programs as on an
    absent field; on the command line a trailing empty argument of
    create-contact is a missing one, and the loop of update-contact passes
    over a flag whose value is empty.  No call of theirs carries a
    mapping with an empty value, but for the required email of the
    create-contact handler, which is sent as given. *)
Lemma empty_field_in_handlers_and_cli {host : Host} (w : World) :
  (forall (email : string) (firstName lastName phone : option string),
      create_contact_tool email firstName lastName phone =
      create_contact_tool email (drop_empty firstName) (drop_empty lastName)
        (drop_empty phone))
  /\ (forall (contactId : string)
             (email firstName lastName phone : option string),
      update_contact_tool contactId email firstName lastName phone =
      update_contact_tool contactId (drop_empty email) (drop_empty firstName)
        (drop_empty lastName) (drop_empty phone))
  /\ (forall email firstName lastName : string,
      cli_create_contact [email; ""] = cli_create_contact [email] /\
      cli_create_contact [email; firstName; ""] =
        cli_create_contact [email; firstName] /\
      cli_create_contact [email; firstName; lastName; ""] =
        cli_create_contact [email; firstName; lastName] /\
      cli_create_contact [email; ""; lastName] =
        cli_create_contact [email; ""; lastName; ""])
  /\ (forall (flag : string) (rest : list string) (properties : JsObject),
      parse_update_args (flag :: "" :: rest) properties =
      parse_update_args rest properties)
  /\ (forall (email : string) (firstName lastName phone : option string),
      forallb sends_no_empty_value
        (calls_of w (create_contact_tool email firstName lastName phone)) =
      negb (email =? ""))
  /\ (forall (contactId : string)
             (email firstName lastName phone : option string),
      forallb sends_no_empty_value
        (calls_of w
           (update_contact_tool contactId email firstName lastName phone)) =
      true)
  /\ (forall args : list string,
      forallb sends_no_empty_value (calls_of w (cli_create_contact args)) =
      true)
  /\ (forall args : list string,
      forallb sends_no_empty_value (calls_of w (cli_update_contact args)) =
      true).
Proof.
  split.
  { intros email firstName lastName phone.
    destruct firstName as [[|c1 s1]|], lastName as [[|c2 s2]|],
      phone as [[|c3 s3]|]; reflexivity. }
  split.
  { intros contactId email firstName lastName phone.
    destruct email as [[|c0 s0]|], firstName as [[|c1 s1]|],
      lastName as [[|c2 s2]|], phone as [[|c3 s3]|]; reflexivity. }
  split.
  { intros email firstName lastName.
    split; [|split; [|split]]; reflexivity. }
  split.
  { intros flag rest properties. reflexivity. }
  split.
  { intros email firstName lastName phone.
    pose proof (calls_of_tool w
                  (CreateContact email firstName lastName phone)) as H.
    change (call_tool _)
      with (create_contact_tool email firstName lastName phone) in H.
    rewrite H. simpl.
    rewrite no_empty_value_create_properties. apply andb_true_r. }
  split.
  { intros contactId email firstName lastName phone.
    pose proof (calls_of_tool w
                  (UpdateContact contactId email firstName lastName phone))
      as H.
    change (call_tool _)
      with (update_contact_tool contactId email firstName lastName phone)
      in H.
    rewrite H. simpl.
    rewrite no_empty_value_update_properties. reflexivity. }
  split.
  { intros [|email args]; [reflexivity|].
    destruct (email =? "") eqn:E.
    - unfold cli_create_contact. rewrite guard_truthy_falsy; [reflexivity|].
      simpl. rewrite E. reflexivity.
    - rewrite calls_cli_create_contact by exact E. simpl.
      rewrite no_empty_value_create_properties, E. reflexivity. }
  intros [|contactId args]; [reflexivity|].
  destruct (contactId =? "") eqn:E.
  - unfold cli_update_contact. rewrite guard_truthy_falsy; [reflexivity|].
    simpl. rewrite E. reflexivity.
  - rewrite calls_cli_update_contact by exact E. simpl.
    rewrite (proj1 (no_empty_value_parse_update_args args)) by reflexivity.
    reflexivity.
Qed.

(** ** Reading a block back *)

Section ReadBack.
Context {host : Host}.

Lemma no_line_feed_app (s1 s2 : string) :
  no_line_feed (s1 ++ s2) = no_line_feed s1 && no_line_feed s2.
Proof.
  induction s1 as [|c s1 IH]; simpl; [reflexivity|].
  rewrite IH. apply andb_assoc.
Qed.

(** A line without line feed, then a line feed: the first of the lines. *)
Lemma lines_app_LF (s rest : string) :
  no_line_feed s = true -> lines (s ++ LF ++ rest) = s :: lines rest.
Proof.
  change (LF ++ rest) with (String (ascii_of_nat 10) rest).
  induction s as [|c s IH]; simpl; intros H.
  - reflexivity.
  - apply andb_true_iff in H as [Hc Hs].
    apply negb_true_iff in Hc. rewrite Hc, (IH Hs). reflexivity.
Qed.

Lemma strip_prefix_app (p s : string) : strip_prefix p (p ++ s) = Some s.
Proof.
  induction p as [|c p IH]; simpl.
  - destruct s; reflexivity.
  - rewrite Ascii.eqb_refl. exact IH.
Qed.

(** The reader recovers what the formatter printed for the identifier,
    the name, the email and the phone of any contact, as long as none of
    them runs over a line; the date that follows them does not matter. *)
Lemma parse_contact_block_of_block (contact : SimplePublicObject)
  (createDate : Date) :
  let props := properties contact in
  no_line_feed (id contact) = true ->
  no_line_feed (js_or (prop props "firstname") "") = true ->
  no_line_feed (js_or (prop props "lastname") "") = true ->
  no_line_feed (js_or (prop props "email") "N/A") = true ->
  no_line_feed (js_or (prop props "phone") "N/A") = true ->
  parse_contact_block (contact_block contact createDate) =
  Some {| parsed_id := id contact;
          parsed_name := js_or (prop props "firstname") "" ++ " " ++
                         js_or (prop props "lastname") "";
          parsed_email := js_or (prop props "email") "N/A";
          parsed_phone := js_or (prop props "phone") "N/A" |}.
Proof.
  intros props Hid Hfirst Hlast Hemail Hphone.
  unfold parse_contact_block, contact_block. fold props.
  cbn [String.concat].
  rewrite lines_app_LF
    by (rewrite no_line_feed_app, Hid; reflexivity).
  rewrite lines_app_LF
    by (rewrite !no_line_feed_app, Hfirst, Hlast; reflexivity).
  rewrite lines_app_LF
    by (rewrite no_line_feed_app, Hemail; reflexivity).
  rewrite lines_app_LF
    by (rewrite no_line_feed_app, Hphone; reflexivity).
  cbn [labelled].
  rewrite (strip_prefix_app "Contact ID: " (id contact)).
  change (strip_prefix "Name: " ("Contact ID: " ++ id contact))
    with (@None string).
  rewrite (strip_prefix_app "Name: ").
  change (strip_prefix "Email: " ("Contact ID: " ++ id contact))
    with (@None string).
  change (strip_prefix "Email: " ("Name: " ++ ?x)) with (@None string).
  rewrite (strip_prefix_app "Email: ").
  change (strip_prefix "Phone: " ("Contact ID: " ++ id contact))
    with (@None string).
  change (strip_prefix "Phone: " ("Name: " ++ ?x)) with (@None string).
  change (strip_prefix "Phone: " ("Email: " ++ ?x)) with (@None string).
  rewrite (strip_prefix_app "Phone: ").
  reflexivity.
Qed.

End ReadBack.

(** C9.  The round trip of the listing formatter on the record with
    identifier 42, email a@b.com, first name A, last name B and phone 555:
    the block it returns has the lines [Contact ID: 42], [Name: A B],
    [Email: a@b.com] and [Phone: 555], and reading the block back gives
    the identifier, the full name, the email and the phone as they were. *)
Theorem format_then_parse_round_trip {host : Host} (w : World) (tick : nat) :
  exists block : string,
    run w (format_contact contact_42) tick = ([ENewDate], Returned block)
    /\ In "Contact ID: 42" (lines block)
    /\ In "Name: A B" (lines block)
    /\ In "Email: a@b.com" (lines block)
    /\ In "Phone: 555" (lines block)
    /\ parse_contact_block block =
       Some {| parsed_id := "42"; parsed_name := "A B";
               parsed_email := "a@b.com"; parsed_phone := "555" |}.
Proof.
  rewrite run_format_contact.
  eexists. split; [reflexivity|].
  cbn. repeat split; auto 6.
Qed.

(** * The claims at concrete inputs *)

(** C1 as stated fails at the empty contact identifier, which the schema
    of delete-contact admits: the tool handler issues the archive call,
    the command line prints its usage and calls nothing. *)
Lemma cli_delete_contact_empty_id_differs :
  calls_of empty_world (call_tool (DeleteContact "")) = [basicApi_archive ""]
  /\ calls_of empty_world
       (main ("node" :: "build/index.js" :: cli_args (DeleteContact ""))) = []
  /\ calls_of empty_world
       (main ("node" :: "build/index.js" :: cli_args (DeleteContact ""))) <>
     calls_of empty_world (call_tool (DeleteContact "")).
Proof.
  split; [reflexivity|]. split; [reflexivity|].
  vm_compute. discriminate.
Qed.

(** C2 at an update of the first name alone. *)
Lemma update_sends_only_supplied_fields_witness :
  obj_get (update_properties None (Some "Ann") None None) "firstname" =
    Some "Ann"
  /\ (("firstname" = "email" /\ @None string = Some "Ann") \/
      ("firstname" = "firstname" /\ Some "Ann" = Some "Ann") \/
      ("firstname" = "lastname" /\ @None string = Some "Ann") \/
      ("firstname" = "phone" /\ @None string = Some "Ann")).
Proof.
  split; [reflexivity|].
  apply (proj1 (proj2 (@update_sends_only_supplied_fields plain_host
                         empty_world "12345" None (Some "Ann") None None))).
  reflexivity.
Defined.

(** C3 in the world whose CRM holds no contact. *)
Lemma zero_results_is_success_witness :
  remote empty_world
    (searchApi_doSearch (get_contact_request "nobody@example.com")) =
    inr {| results := [] |}
  /\ remote empty_world search_contacts_call = inr {| results := [] |}
  /\ remote empty_world (searchApi_doSearch get_last_contacts_request) =
     inr {| results := [] |}
  /\ outcome_of empty_world (get_contact_tool "nobody@example.com") =
     Returned
       (text_content "No contact found with email: nobody@example.com")
  /\ outcome_of empty_world (search_contacts_tool None) =
     Returned (text_content ("Last 10 contacts:" ++ LF ++ LF))
  /\ outcome_of empty_world get_last_contacts_tool =
     Returned
       (text_content
          ("Last 2 contacts (sorted by creation date):" ++ LF ++ LF)).
Proof.
  split; [reflexivity|]. split; [reflexivity|]. split; [reflexivity|].
  destruct (@zero_results_is_success plain_host empty_world)
    as (Hget & Hsearch & Hlast).
  unfold outcome_of. split; [|split].
  - rewrite (proj1 (Hget "nobody@example.com" {| results := [] |}
                      eq_refl eq_refl)).
    reflexivity.
  - rewrite (proj1 (Hsearch None {| results := [] |} eq_refl eq_refl)).
    reflexivity.
  - rewrite (proj1 (Hlast {| results := [] |} eq_refl eq_refl)).
    reflexivity.
Defined.

(** C5 in a world whose CRM rejects every call with an error that has no
    message. *)
Lemma remote_error_becomes_failure_result_witness :
  remote (failing_world (ThrownObject JUndefined))
    (remote_call GetLastContacts) = inl (ThrownObject JUndefined)
  /\ optional_message (ThrownObject JUndefined) = JUndefined
  /\ outcome_of (failing_world (ThrownObject JUndefined))
       (call_tool GetLastContacts) =
     Returned (text_content "Failed to get last contacts: Unknown error").
Proof.
  split; [reflexivity|]. split; [reflexivity|].
  apply (proj2 (@remote_error_becomes_failure_result plain_host
                  (failing_world (ThrownObject JUndefined))
                  GetLastContacts) (ThrownObject JUndefined) eq_refl).
  reflexivity.
Defined.

(** C7 at [node build/index.js create-contact]. *)
Lemma cli_create_contact_without_email_witness :
  truthy (nth_error (@nil string) 0) = false
  /\ outcome_of empty_world (main ["node"; "build/index.js"; "create-contact"])
     = Exited 1%Z
  /\ calls_of empty_world (main ["node"; "build/index.js"; "create-contact"])
     = [].
Proof.
  split; [reflexivity|].
  destruct (@cli_create_contact_without_email plain_host empty_world
              "node" "build/index.js" [] eq_refl) as [Hrun Hcalls].
  split; [|exact Hcalls].
  unfold outcome_of. rewrite Hrun. reflexivity.
Defined.

(** C8 at a record created on 2024-01-01. *)
Lemma created_line_of_block_witness :
  prop (properties contact_created_2024) "createdate" = JStr "2024-01-01"
  /\ "2024-01-01" <> ""
  /\ run empty_world (format_contact contact_created_2024) 0 =
     ([], Returned
            (@contact_block plain_host contact_created_2024
               (@Date_of_string plain_host "2024-01-01"))).
Proof.
  split; [reflexivity|].
  assert (Hne : "2024-01-01" <> "") by discriminate.
  split; [exact Hne|].
  apply (proj1 (@created_line_of_block plain_host empty_world
                  contact_created_2024 0)
           "2024-01-01" eq_refl Hne).
Defined.

(** C8 as stated fails at a record whose [createdate] is present and
    empty: nothing is parsed, the block shows the time of the clock. *)
Lemma empty_createdate_is_not_parsed :
  prop (properties contact_created_empty) "createdate" = JStr ""
  /\ outcome_of empty_world (format_contact contact_created_empty) =
     Returned (@contact_block plain_host contact_created_empty sample_now)
  /\ outcome_of empty_world (format_contact contact_created_empty) <>
     Returned
       (@contact_block plain_host contact_created_empty
          (@Date_of_string plain_host "")).
Proof.
  split; [reflexivity|]. split; [reflexivity|].
  vm_compute. discriminate.
Qed.

(** * Further properties of the code *)

(** ** The mappings that are sent *)

(** Settles a goal about a lookup at an unknown key in a mapping with
    known keys, by cases on which known key it is. *)
Ltac by_key k :=
  destruct (k =? "email") eqn:?Kemail; destruct (k =? "firstname") eqn:?Kfirst;
  destruct (k =? "lastname") eqn:?Klast; destruct (k =? "phone") eqn:?Kphone;
  try reflexivity;
  repeat match goal with
         | H : (k =? _) = true |- _ => apply String.eqb_eq in H
         end;
  subst; discriminate.

(** X1.  create-contact sends the email under [email] whatever else is given,
    each of first name, last name and phone under its own key exactly
    when it is given and not empty, and no other key (lines 38-44 and
    338-344). *)
Theorem create_mapping_lookup (email : string)
  (firstName lastName phone : option string) (k : string) :
  obj_get (create_properties email firstName lastName phone) k =
  if k =? "email" then Some email
  else if k =? "firstname" then drop_empty firstName
  else if k =? "lastname" then drop_empty lastName
  else if k =? "phone" then drop_empty phone
  else None.
Proof.
  destruct firstName as [[|c1 s1]|], lastName as [[|c2 s2]|],
    phone as [[|c3 s3]|]; cbn; by_key k.
Qed.

(** X2.  update-contact sends each of its four optional fields under its own
    key exactly when the field is given and not empty, and no other key
    (lines 199-204). *)
Theorem update_mapping_lookup (email firstName lastName phone : option string)
  (k : string) :
  obj_get (update_properties email firstName lastName phone) k =
  if k =? "email" then drop_empty email
  else if k =? "firstname" then drop_empty firstName
  else if k =? "lastname" then drop_empty lastName
  else if k =? "phone" then drop_empty phone
  else None.
Proof.
  destruct email as [[|c0 s0]|], firstName as [[|c1 s1]|],
    lastName as [[|c2 s2]|], phone as [[|c3 s3]|]; cbn; by_key k.
Qed.

(** ** The flags of update-contact on the command line *)

Lemma obj_get_switch_flag_other (flag value : string) (o : JsObject)
  (k : string) :
  written_key k = false ->
  obj_get (switch_flag flag value o) k = obj_get o k.
Proof.
  unfold written_key, switch_flag. intros H.
  apply orb_false_iff in H as [H Hphone].
  apply orb_false_iff in H as [H Hlast].
  apply orb_false_iff in H as [Hemail Hfirst].
  repeat match goal with
         | |- context [if ?b then _ else _] => destruct b
         end;
    rewrite ?obj_get_set, ?Hemail, ?Hfirst, ?Hlast, ?Hphone; reflexivity.
Qed.

(** The loop reads the arguments two at a time, so the arguments after an
    even number of them are read as if the loop started there. *)
Lemma parse_update_args_app_pair (pre : list string) :
  (forall post o,
      Nat.even (length pre) = true ->
      parse_update_args (pre ++ post) o =
      parse_update_args post (parse_update_args pre o)) /\
  (forall a post o,
      Nat.even (length (a :: pre)) = true ->
      parse_update_args (a :: pre ++ post) o =
      parse_update_args post (parse_update_args (a :: pre) o)).
Proof.
  induction pre as [|b pre [IH0 IH1]].
  - split; [reflexivity|]. intros a post o H. discriminate H.
  - split.
    + intros post o H. apply (IH1 b post o H).
    + intros a post o H. simpl. apply IH0. exact H.
Qed.

(** X3.  The loop of the update-contact branch (lines 458-478) writes no key
    but [email], [firstname], [lastname] and [phone], whatever the
    arguments: an unknown flag, a flag without a value and a stray
    argument leave every other key as it was. *)
Theorem update_flags_write_known_keys_only (updateArgs : list string)
  (properties : JsObject) (k : string) :
  written_key k = false ->
  obj_get (parse_update_args updateArgs properties) k = obj_get properties k.
Proof.
  intros Hk. revert properties.
  assert (H : (forall o, obj_get (parse_update_args updateArgs o) k =
                         obj_get o k) /\
              (forall a o, obj_get (parse_update_args (a :: updateArgs) o) k =
                           obj_get o k)).
  { induction updateArgs as [|b rest [IH0 IH1]].
    - split; reflexivity.
    - split; [exact (IH1 b)|].
      intros a o. simpl. rewrite IH0.
      destruct (b =? ""); [reflexivity|].
      apply obj_get_switch_flag_other. exact Hk. }
  exact (proj1 H).
Qed.

(** X4.  An unknown flag and its value are passed over (the [switch] of lines
    464-477 has no default), and so is a last argument that has no value
    after it, known flag or not. *)
Theorem update_flags_skip_unknown (flag value dangling : string)
  (rest : list string) (properties : JsObject) :
  known_flag flag = false ->
  parse_update_args (flag :: value :: rest) properties =
    parse_update_args rest properties
  /\ parse_update_args [dangling] properties = properties.
Proof.
  unfold known_flag. intros H.
  apply orb_false_iff in H as [H Hphone].
  apply orb_false_iff in H as [H Hlast].
  apply orb_false_iff in H as [Hemail Hfirst].
  split; [|reflexivity].
  simpl. unfold switch_flag. rewrite Hemail, Hfirst, Hlast, Hphone.
  destruct (value =? ""); reflexivity.
Qed.

(** X5.  When a flag is given more than once the last value is the one sent:
    after any even number of earlier arguments, a flag with a value that
    is not empty sets its key to that value (lines 458-478). *)
Theorem update_flags_last_wins (pre : list string) (value : string)
  (properties : JsObject) :
  Nat.even (length pre) = true -> (value =? "") = false ->
  obj_get (parse_update_args (pre ++ ["--email"; value]) properties) "email"
    = Some value
  /\ obj_get (parse_update_args (pre ++ ["--firstName"; value]) properties)
       "firstname" = Some value
  /\ obj_get (parse_update_args (pre ++ ["--lastName"; value]) properties)
       "lastname" = Some value
  /\ obj_get (parse_update_args (pre ++ ["--phone"; value]) properties)
       "phone" = Some value.
Proof.
  intros Heven Hvalue.
  rewrite !(proj1 (parse_update_args_app_pair pre)) by exact Heven.
  simpl. rewrite Hvalue. unfold switch_flag. simpl.
  rewrite !obj_get_set. repeat split.
Qed.

(** ** The message of an error *)

(** X7.  The text reported for an error is never empty: it is the message of
    the error when that is a string that is not empty, and the words
    [Unknown error] when the thrown value is null or undefined, or its
    message is missing, null or the empty string (the expression
    [error?.message || 'Unknown error'] of every [catch] block). *)
Theorem error_message_fallback (error : Thrown) :
  (error_message error =? "") = false
  /\ (forall m : string,
        optional_message error = JStr m -> (m =? "") = false ->
        error_message error = m)
  /\ (optional_message error = JUndefined \/
      optional_message error = JNull \/
      optional_message error = JStr "" ->
      error_message error = "Unknown error").
Proof.
  unfold error_message, js_or. split; [|split].
  - destruct (optional_message error) as [| |m]; try reflexivity.
    simpl. destruct (m =? "") eqn:E; [reflexivity|exact E].
  - intros m Hm Hne. rewrite Hm. simpl. rewrite Hne. reflexivity.
  - intros [H|[H|H]]; rewrite H; reflexivity.
Qed.

(** ** Runs of the listings, in full *)

Section ListingRuns.
Context {host : Host}.
Variable w : World.

Lemma ticks_clock_reads (cs : list SimplePublicObject) :
  clock_reads cs = repeat ENewDate (length (undated cs)).
Proof.
  induction cs as [|c cs IH]; [reflexivity|].
  simpl. unfold undated in *. simpl. unfold date_log.
  destruct (js_truthy (prop (properties c) "createdate")); simpl;
    rewrite IH; reflexivity.
Qed.

Lemma length_formatted_blocks (cs : list SimplePublicObject) (tick : nat) :
  length (formatted_blocks w cs tick) = length cs.
Proof.
  revert tick. induction cs as [|c cs IH]; intros tick; simpl;
    [|rewrite IH]; reflexivity.
Qed.

Lemma run_mapM_format_exact (cs : list SimplePublicObject) (tick : nat) :
  run w (mapM format_contact cs) tick =
  (clock_reads cs, Returned (formatted_blocks w cs tick)).
Proof.
  revert tick. induction cs as [|c cs IH]; intros tick; [reflexivity|].
  simpl mapM. rewrite run_bind, run_format_contact, run_bind, IH.
  simpl. rewrite app_nil_r. reflexivity.
Qed.

Lemma run_print_contact_exact (c : SimplePublicObject) (tick : nat) :
  run w (print_contact c) tick =
  ((date_log (properties c) ++
    map (fun l => EConsole Stdout [LStr l])
      (firstn 5 (contact_lines c (settled_date w (properties c) tick)) ++
       [("---" ++ LF)%string]))%list,
   Returned tt).
Proof.
  unfold print_contact. rewrite run_bind, run_createDate_of. reflexivity.
Qed.

Lemma run_forEach_print_exact (cs : list SimplePublicObject) (tick : nat) :
  run w (forEach print_contact cs) tick =
  (printed_contacts w cs tick, Returned tt).
Proof.
  revert tick. induction cs as [|c cs IH]; intros tick; [reflexivity|].
  simpl forEach. rewrite run_bind, run_print_contact_exact.
  rewrite ticks_app.
  replace (ticks (map (fun l => EConsole Stdout [LStr l])
                    (firstn 5
                       (contact_lines c
                          (settled_date w (properties c) tick)) ++
                     [("---" ++ LF)%string]))) with 0 by reflexivity.
  rewrite Nat.add_0_r, IH.
  simpl printed_contacts. rewrite <- app_assoc. reflexivity.
Qed.

End ListingRuns.

(** ** Runs of the command line, in full *)

Section CommandLineRuns.
Context {host : Host}.
Variable w : World.

(** [main] on any argument vector, also a short one. *)
Lemma run_main_any (argv : list string) :
  run w (main argv) 0 =
  let (log, out) := run w (dispatch (nth_error argv 2) (skipn 3 argv)) 0 in
  ((startup_log ++ log)%list, out).
Proof.
  unfold main. run_steps.
  change (run w server_connect 0) with ([EConnect], @Returned unit tt).
  cbv beta iota. run_steps.
  change (run w (console_error
                   [LStr "HubSpot MCP Server running on stdio"])
              (0 + ticks [EConnect]))
    with ([EConsole Stderr [LStr "HubSpot MCP Server running on stdio"]],
          @Returned unit tt).
  cbv beta iota zeta.
  change (0 + ticks [EConnect] +
          ticks [EConsole Stderr
                   [LStr "HubSpot MCP Server running on stdio"]]) with 0.
  destruct (run w (dispatch (nth_error argv 2) (skipn 3 argv)) 0)
    as [log out].
  reflexivity.
Qed.

Lemma run_cli_create_contact (email : string) (args : list string) :
  (email =? "") = false ->
  run w (cli_create_contact (email :: args)) 0 =
  one_call_run w
    (basicApi_create
       (create_properties email (nth_error args 0) (nth_error args 1)
          (nth_error args 2)))
    "Error creating contact:"
    (fun response =>
       "Contact created successfully:" ++ LF ++
       "ID: " ++ id response ++ LF ++
       "Email: " ++ email ++ LF ++
       "Name: " ++ or_else (nth_error args 0) "" ++ " " ++
                   or_else (nth_error args 1) "").
Proof.
  intros H. unfold cli_create_contact, one_call_run.
  cbn [nth_error guard_truthy]. rewrite H. run_steps.
  destruct (remote w _); reflexivity.
Qed.

Lemma run_cli_get_contact (email : string) (args : list string) :
  (email =? "") = false ->
  run w (cli_get_contact (email :: args)) 0 =
  one_call_run w (searchApi_doSearch (get_contact_request email))
    "Error getting contact:"
    (fun searchResponse =>
       match results searchResponse with
       | [] => "No contact found with email: " ++ email
       | contact :: _ => contact_found_text contact
       end).
Proof.
  intros H. unfold cli_get_contact, one_call_run.
  cbn [nth_error guard_truthy]. rewrite H. run_steps.
  destruct (remote w _) as [error|response]; [reflexivity|].
  cbv beta iota. destruct (results response); reflexivity.
Qed.

Lemma run_cli_delete_contact (contactId : string) (args : list string) :
  (contactId =? "") = false ->
  run w (cli_delete_contact (contactId :: args)) 0 =
  one_call_run w (basicApi_archive contactId) "Error deleting contact:"
    (fun _ => "Contact with ID " ++ contactId ++ " deleted successfully.").
Proof.
  intros H. unfold cli_delete_contact, one_call_run.
  cbn [nth_error guard_truthy]. rewrite H. run_steps.
  destruct (remote w _); reflexivity.
Qed.

Lemma run_cli_update_contact (contactId : string) (args : list string) :
  (contactId =? "") = false ->
  run w (cli_update_contact (contactId :: args)) 0 =
  one_call_run w (basicApi_update contactId (parse_update_args args []))
    "Error updating contact:"
    (fun _ => contact_updated_text contactId (parse_update_args args [])).
Proof.
  intros H. unfold cli_update_contact, one_call_run.
  cbn [nth_error guard_truthy tl]. rewrite H. run_steps.
  destruct (remote w _); reflexivity.
Qed.

Lemma run_cli_search_contacts :
  run w cli_search_contacts 0 =
  match remote w search_contacts_call with
  | inl error =>
      ([ECall search_contacts_call;
        EConsole Stderr
          [LStr "Error searching contacts:"; LStr (error_message error)]],
       Exited 1%Z)
  | inr response =>
      (ECall search_contacts_call ::
       EConsole Stdout [LStr (LF ++ "Last 10 contacts:" ++ LF)] ::
       printed_contacts w (results response) 0,
       Exited 0%Z)
  end.
Proof.
  unfold cli_search_contacts. run_steps.
  destruct (remote w _) as [error|response]; [reflexivity|].
  simpl. run_steps. rewrite run_forEach_print_exact. simpl.
  rewrite app_nil_r. reflexivity.
Qed.

Lemma run_cli_get_last_contacts :
  run w cli_get_last_contacts 0 =
  match remote w (searchApi_doSearch get_last_contacts_request) with
  | inl error =>
      ([ECall (searchApi_doSearch get_last_contacts_request);
        EConsole Stderr
          [LStr "Error getting last contacts:";
           LStr (error_message error)]],
       Exited 1%Z)
  | inr response =>
      (ECall (searchApi_doSearch get_last_contacts_request) ::
       EConsole Stdout
         [LStr (LF ++ "Last 2 contacts (sorted by creation date):" ++ LF)] ::
       printed_contacts w (results response) 0,
       Exited 0%Z)
  end.
Proof.
  unfold cli_get_last_contacts. run_steps.
  destruct (remote w _) as [error|response]; [reflexivity|].
  simpl. run_steps. rewrite run_forEach_print_exact. simpl.
  rewrite app_nil_r. reflexivity.
Qed.

End CommandLineRuns.

(** ** Runs of the tool handlers, in full *)

Section HandlerRuns.
Context {host : Host}.
Variable w : World.

Lemma run_tool_rejected_label (t : ToolRequest) (error : Thrown) :
  remote w (remote_call t) = inl error ->
  run w (call_tool t) 0 =
  ([ECall (remote_call t);
    EConsole Stderr [LStr (error_label t); LErr error]],
   Returned (text_content (failure_prefix t ++ error_message error))).
Proof.
  intros H.
  destruct t; simpl in H; simpl call_tool;
    [ unfold create_contact_tool | unfold get_contact_tool
    | unfold search_contacts_tool | unfold update_contact_tool
    | unfold delete_contact_tool | unfold get_last_contacts_tool ];
    run_steps; rewrite H; reflexivity.
Qed.

Lemma run_tool_resolved (t : ToolRequest) (r : Response (remote_call t)) :
  remote w (remote_call t) = inr r ->
  run w (call_tool t) 0 =
  (ECall (remote_call t) :: tool_clock_reads t r,
   Returned (text_content (tool_success_text w t r))).
Proof.
  intros H.
  destruct t; simpl in H, r; simpl call_tool.
  - unfold create_contact_tool. run_steps. rewrite H. reflexivity.
  - unfold get_contact_tool. run_steps. rewrite H. simpl.
    destruct (results r); reflexivity.
  - unfold search_contacts_tool. run_steps. rewrite H. simpl.
    run_steps. rewrite run_mapM_format_exact. simpl.
    rewrite app_nil_r. reflexivity.
  - unfold update_contact_tool. run_steps. rewrite H. reflexivity.
  - unfold delete_contact_tool. run_steps. rewrite H. reflexivity.
  - unfold get_last_contacts_tool. run_steps. rewrite H. simpl.
    run_steps. rewrite run_mapM_format_exact. simpl.
    rewrite app_nil_r. reflexivity.
Qed.

Lemma is_failure_success_text (t : ToolRequest)
  (r : Response (remote_call t)) :
  is_failure (text_content (tool_success_text w t r)) = false.
Proof.
  destruct t; simpl in r |- *; try reflexivity.
  destruct (results r); reflexivity.
Qed.

Lemma is_failure_failure_text (t : ToolRequest) (message : string) :
  is_failure (text_content (failure_prefix t ++ message)) = true.
Proof. destruct t; reflexivity. Qed.

Lemma no_console_in_clock_reads (cs : list SimplePublicObject) :
  existsb writes_stdout (clock_reads cs) = false /\
  existsb writes_stderr (clock_reads cs) = false.
Proof.
  rewrite ticks_clock_reads.
  induction (length (undated cs)) as [|n IH]; [split; reflexivity|].
  exact IH.
Qed.

Lemma no_console_in_tool_clock_reads (t : ToolRequest)
  (r : Response (remote_call t)) :
  existsb writes_stdout (tool_clock_reads t r) = false /\
  existsb writes_stderr (tool_clock_reads t r) = false.
Proof.
  destruct t; simpl in r |- *; try (split; reflexivity);
    apply no_console_in_clock_reads.
Qed.

End HandlerRuns.

(** X8.  A tool handler never writes on the standard output, which carries
    the protocol: a handler whose call resolves writes nothing on the
    console at all, and a handler whose call is rejected writes one line
    on the error stream, the label of its [catch] block and the error
    (the six handlers, lines 36-69, 78-129, 138-184, 197-229, 238-261 and
    268-314). *)
Theorem tool_console_discipline {host : Host} (w : World) (t : ToolRequest) :
  existsb writes_stdout (fst (run w (call_tool t) 0)) = false
  /\ (forall r : Response (remote_call t),
        remote w (remote_call t) = inr r ->
        existsb writes_stderr (fst (run w (call_tool t) 0)) = false)
  /\ (forall error : Thrown,
        remote w (remote_call t) = inl error ->
        fst (run w (call_tool t) 0) =
        [ECall (remote_call t);
         EConsole Stderr [LStr (error_label t); LErr error]]).
Proof.
  split; [|split].
  - destruct (remote w (remote_call t)) as [error|r] eqn:H.
    + rewrite (run_tool_rejected_label w t H). reflexivity.
    + rewrite (run_tool_resolved w t H). simpl.
      apply no_console_in_tool_clock_reads.
  - intros r H. rewrite (run_tool_resolved w t H). simpl.
    apply no_console_in_tool_clock_reads.
  - intros error H. rewrite (run_tool_rejected_label w t H). reflexivity.
Qed.

(** X9.  The handlers set no error flag on their result, so the text is what
    tells a failure from a success; it does: the text that a handler
    returns begins with [Failed to] exactly when its client call was
    rejected. *)
Theorem failure_text_iff_rejected {host : Host} (w : World)
  (t : ToolRequest) :
  exists r : CallToolResult,
    outcome_of w (call_tool t) = Returned r /\
    is_failure r =
    match remote w (remote_call t) with
    | inl _ => true
    | inr _ => false
    end.
Proof.
  unfold outcome_of.
  destruct (remote w (remote_call t)) as [error|r] eqn:H.
  - rewrite (run_tool_rejected_label w t H). eexists. split; [reflexivity|].
    apply is_failure_failure_text.
  - rewrite (run_tool_resolved w t H). eexists. split; [reflexivity|].
    apply is_failure_success_text.
Qed.

(** X10.  The text of each listing tool, in full: the heading names the fixed
    limit (10, or 2) whatever the number of contacts that came back, then
    come the blocks of the contacts in the order of the answer, one per
    contact, separated by an empty line; the clock is read once for each
    contact without a usable [createdate] and not otherwise (lines
    139-172 and 269-302). *)
Theorem listing_tool_text {host : Host} (w : World) (query : option string) :
  (forall r : Collection,
      remote w search_contacts_call = inr r ->
      run w (search_contacts_tool query) 0 =
        (ECall search_contacts_call ::
           repeat ENewDate (length (undated (results r))),
         Returned
           (text_content
              ("Last 10 contacts:" ++ LF ++ LF ++
               String.concat (LF ++ LF)
                 (formatted_blocks w (results r) 0))))
      /\ length (formatted_blocks w (results r) 0) = length (results r))
  /\ (forall r : Collection,
      remote w (searchApi_doSearch get_last_contacts_request) = inr r ->
      run w get_last_contacts_tool 0 =
        (ECall (searchApi_doSearch get_last_contacts_request) ::
           repeat ENewDate (length (undated (results r))),
         Returned
           (text_content
              ("Last 2 contacts (sorted by creation date):" ++ LF ++ LF ++
               String.concat (LF ++ LF)
                 (formatted_blocks w (results r) 0))))
      /\ length (formatted_blocks w (results r) 0) = length (results r)).
Proof.
  split; intros r H; (split; [|apply length_formatted_blocks]).
  - pose proof (run_tool_resolved w (SearchContacts query) H) as Hrun.
    change (call_tool _) with (search_contacts_tool query) in Hrun.
    rewrite Hrun. simpl. rewrite ticks_clock_reads. reflexivity.
  - pose proof (run_tool_resolved w GetLastContacts H) as Hrun.
    change (call_tool _) with get_last_contacts_tool in Hrun.
    rewrite Hrun. simpl. rewrite ticks_clock_reads. reflexivity.
Qed.

(** ** The command line, command by command *)

Section CommandLineShapes.
Context {host : Host}.
Variable w : World.

Lemma calls_printed_contacts (cs : list SimplePublicObject) (tick : nat) :
  calls (printed_contacts w cs tick) = [].
Proof.
  revert tick. induction cs as [|c cs IH]; intros tick; [reflexivity|].
  simpl printed_contacts. rewrite calls_app, calls_date_log.
  simpl. apply IH.
Qed.

Lemma stdout_printed_contacts (cs : list SimplePublicObject) (tick : nat) :
  length (filter writes_stdout (printed_contacts w cs tick)) =
  6 * length cs.
Proof.
  revert tick. induction cs as [|c cs IH]; intros tick; [reflexivity|].
  simpl printed_contacts. rewrite filter_app, length_app.
  replace (length (filter writes_stdout (date_log (properties c)))) with 0
    by (unfold date_log; destruct (js_truthy _); reflexivity).
  cbn [length filter map firstn contact_lines app writes_stdout Nat.add].
  rewrite IH. lia.
Qed.

Lemma one_call_run_ends (c : RemoteCall) (label : string)
  (success : Response c -> string) :
  ends_after_one_call w (one_call_run w c label success).
Proof.
  exists c. unfold one_call_run. destruct (remote w c); split; reflexivity.
Qed.

Lemma usage_exit_ends (usage example : string) :
  ends_without_call (run w (@usage_exit host unit usage example) 0).
Proof. split; reflexivity. Qed.

Ltac usage_branch :=
  right; rewrite guard_truthy_falsy;
  [apply usage_exit_ends | simpl; rewrite ?String.eqb_refl; reflexivity].

Lemma dispatch_known_ends (command : option string) (args : list string) :
  known_command command = true ->
  ends_after_one_call w (run w (dispatch command args) 0) \/
  ends_without_call (run w (dispatch command args) 0).
Proof.
  unfold known_command, dispatch. intros H.
  destruct (is_command command "create-contact").
  { destruct args as [|a args]; [unfold cli_create_contact; usage_branch|].
    destruct (a =? "") eqn:E.
    - apply String.eqb_eq in E. subst a.
      unfold cli_create_contact. usage_branch.
    - left. rewrite run_cli_create_contact by exact E.
      apply one_call_run_ends. }
  destruct (is_command command "get-contact").
  { destruct args as [|a args]; [unfold cli_get_contact; usage_branch|].
    destruct (a =? "") eqn:E.
    - apply String.eqb_eq in E. subst a.
      unfold cli_get_contact. usage_branch.
    - left. rewrite run_cli_get_contact by exact E.
      apply one_call_run_ends. }
  destruct (is_command command "delete-contact").
  { destruct args as [|a args]; [unfold cli_delete_contact; usage_branch|].
    destruct (a =? "") eqn:E.
    - apply String.eqb_eq in E. subst a.
      unfold cli_delete_contact. usage_branch.
    - left. rewrite run_cli_delete_contact by exact E.
      apply one_call_run_ends. }
  destruct (is_command command "search-contacts").
  { left. rewrite run_cli_search_contacts. exists search_contacts_call.
    destruct (remote w search_contacts_call); split; try reflexivity.
    simpl. rewrite calls_printed_contacts. reflexivity. }
  destruct (is_command command "update-contact").
  { destruct args as [|a args]; [unfold cli_update_contact; usage_branch|].
    destruct (a =? "") eqn:E.
    - apply String.eqb_eq in E. subst a.
      unfold cli_update_contact. usage_branch.
    - left. rewrite run_cli_update_contact by exact E.
      apply one_call_run_ends. }
  destruct (is_command command "get-last-contacts"); [|discriminate H].
  left. rewrite run_cli_get_last_contacts.
  exists (searchApi_doSearch get_last_contacts_request).
  destruct (remote w (searchApi_doSearch get_last_contacts_request));
    split; try reflexivity.
  simpl. rewrite calls_printed_contacts. reflexivity.
Qed.

Lemma dispatch_unknown (command : option string) (args : list string) :
  known_command command = false -> dispatch command args = Ret tt.
Proof.
  unfold known_command, dispatch. intros H.
  repeat (apply orb_false_iff in H as [H ?]).
  repeat match goal with
         | E : is_command _ _ = false |- _ => rewrite E; clear E
         end.
  reflexivity.
Qed.

End CommandLineShapes.

Lemma main_with_known_command {host : Host} (w : World)
  (argv : list string) :
  known_command (nth_error argv 2) = true ->
  (exists c : RemoteCall,
      calls_of w (main argv) = [c] /\
      outcome_of w (main argv) =
        match remote w c with
        | inl _ => Exited 1%Z
        | inr _ => Exited 0%Z
        end)
  \/ (calls_of w (main argv) = [] /\ outcome_of w (main argv) = Exited 1%Z).
Proof.
  intros H. unfold calls_of, outcome_of. rewrite run_main_any.
  destruct (dispatch_known_ends w (nth_error argv 2) (skipn 3 argv) H)
    as [(c & Hc & Hout)|[Hc Hout]];
    destruct (run w (dispatch (nth_error argv 2) (skipn 3 argv)) 0)
      as [log out]; simpl in *.
  - left. exists c. split; assumption.
  - right. split; assumption.
Qed.

(** X12.  With one of its six commands [main] always ends the process: either
    after exactly one client call, with status 0 when the call resolved
    and status 1 when it was rejected, or with status 1 and no call at
    all.  It never returns to leave the server running, and never exits
    with another status (lines 325-518). *)
Theorem known_command_ends_the_process {host : Host} (w : World)
  (argv : list string) :
  known_command (nth_error argv 2) = true ->
  (exists c : RemoteCall,
      calls_of w (main argv) = [c] /\
      outcome_of w (main argv) =
        match remote w c with
        | inl _ => Exited 1%Z
        | inr _ => Exited 0%Z
        end)
  \/ (calls_of w (main argv) = [] /\ outcome_of w (main argv) = Exited 1%Z).
Proof.
  intros H. unfold calls_of, outcome_of. rewrite run_main_any.
  destruct (dispatch_known_ends w (nth_error argv 2) (skipn 3 argv) H)
    as [(c & Hc & Hout)|[Hc Hout]];
    destruct (run w (dispatch (nth_error argv 2) (skipn 3 argv)) 0)
      as [log out]; simpl in *.
  - left. exists c. split; assumption.
  - right. split; assumption.
Qed.

(** X13.  Without a command, or with a word that is none of the six commands,
    [main] does nothing after the start-up line: no call, no exit, and
    the server goes on serving (lines 323-519; the chain of tests has no
    final [else]). *)
Theorem unknown_command_keeps_serving {host : Host} (w : World)
  (argv : list string) :
  known_command (nth_error argv 2) = false ->
  run w (main argv) 0 = (startup_log, Returned tt).
Proof.
  intros H. rewrite run_main_any, dispatch_unknown by exact H. reflexivity.
Qed.

(** X14.  Whatever the command line, [main] makes at most one client call:
    nothing is retried and no branch calls twice. *)
Theorem main_issues_at_most_one_call {host : Host} (w : World)
  (argv : list string) :
  length (calls_of w (main argv)) <= 1.
Proof.
  destruct (known_command (nth_error argv 2)) eqn:H.
  - destruct (main_with_known_command w argv H)
      as [(c & Hc & _)|[Hc _]]; rewrite Hc; simpl; lia.
  - unfold calls_of. rewrite run_main_any, dispatch_unknown by exact H.
    simpl. lia.
Qed.

(** X15.  Each of the four commands that read a required first argument
    (create-contact, get-contact, delete-contact, update-contact) answers
    a missing or empty one with its two usage lines on the error stream
    and exit status 1, and makes no client call (lines 331-335, 359-363,
    400-404 and 449-453). *)
Theorem cli_missing_argument_prints_usage {host : Host} (w : World)
  (node script command : string) (args : list string) :
  needs_argument command = true ->
  truthy (nth_error args 0) = false ->
  run w (main (node :: script :: command :: args)) 0 =
  ((startup_log ++ usage_lines command)%list, Exited 1%Z).
Proof.
  intros Hneeds Hfalsy. rewrite run_main_any. cbn [nth_error skipn].
  unfold needs_argument in Hneeds.
  repeat (apply orb_true_iff in Hneeds as [Hneeds|Hneeds]);
    apply String.eqb_eq in Hneeds; subst command.
  - change (dispatch (Some "create-contact") args)
      with (cli_create_contact args).
    unfold cli_create_contact. rewrite guard_truthy_falsy by exact Hfalsy.
    reflexivity.
  - change (dispatch (Some "get-contact") args) with (cli_get_contact args).
    unfold cli_get_contact. rewrite guard_truthy_falsy by exact Hfalsy.
    reflexivity.
  - change (dispatch (Some "delete-contact") args)
      with (cli_delete_contact args).
    unfold cli_delete_contact. rewrite guard_truthy_falsy by exact Hfalsy.
    reflexivity.
  - change (dispatch (Some "update-contact") args)
      with (cli_update_contact args).
    unfold cli_update_contact. rewrite guard_truthy_falsy by exact Hfalsy.
    reflexivity.
Qed.

Section CommandLineOfRequest.
Context {host : Host}.
Variable w : World.

(** The run of [main] on the command line of a request, by the branch
    lemmas. *)
Lemma run_main_cli_args (node script : string) (t : ToolRequest) :
  run w (main (node :: script :: cli_args t)) 0 =
  let (log, out) := run w (dispatch (Some (tool_name t)) (tl (cli_args t))) 0
  in ((startup_log ++ log)%list, out).
Proof. rewrite run_main_any. reflexivity. Qed.

End CommandLineOfRequest.

Section RejectedOnCommandLine.
Context {host : Host}.
Variable w : World.

(** A branch that made one call, which was rejected. *)
Lemma one_call_run_rejected (c0 : RemoteCall) (label : string)
  (success : Response c0 -> string) (c : RemoteCall) (error : Thrown) :
  calls (fst (one_call_run w c0 label success)) = [c] ->
  remote w c = inl error ->
  one_call_run w c0 label success =
  ([ECall c; EConsole Stderr [LStr label; LStr (error_message error)]],
   Exited 1%Z).
Proof.
  unfold one_call_run. intros Hc Herr.
  destruct (remote w c0) as [e|r] eqn:R; simpl in Hc;
    injection Hc as Hc; subst c; rewrite R in Herr.
  - injection Herr as ->. reflexivity.
  - discriminate Herr.
Qed.

Ltac no_call_branch H :=
  rewrite guard_truthy_falsy in H
    by (simpl; rewrite ?String.eqb_refl; reflexivity);
  discriminate H.

Lemma dispatch_rejected (command : option string) (args : list string)
  (c : RemoteCall) (error : Thrown) :
  calls (fst (run w (dispatch command args) 0)) = [c] ->
  remote w c = inl error ->
  run w (dispatch command args) 0 =
  ([ECall c;
    EConsole Stderr
      [LStr (command_error_label command); LStr (error_message error)]],
   Exited 1%Z).
Proof.
  unfold dispatch, command_error_label. intros Hc Herr.
  destruct (is_command command "create-contact").
  { destruct args as [|a args];
      [unfold cli_create_contact in Hc; no_call_branch Hc|].
    destruct (a =? "") eqn:E.
    - apply String.eqb_eq in E. subst a.
      unfold cli_create_contact in Hc. no_call_branch Hc.
    - rewrite run_cli_create_contact in Hc |- * by exact E.
      apply one_call_run_rejected; assumption. }
  destruct (is_command command "get-contact").
  { destruct args as [|a args];
      [unfold cli_get_contact in Hc; no_call_branch Hc|].
    destruct (a =? "") eqn:E.
    - apply String.eqb_eq in E. subst a.
      unfold cli_get_contact in Hc. no_call_branch Hc.
    - rewrite run_cli_get_contact in Hc |- * by exact E.
      apply one_call_run_rejected; assumption. }
  destruct (is_command command "delete-contact").
  { destruct args as [|a args];
      [unfold cli_delete_contact in Hc; no_call_branch Hc|].
    destruct (a =? "") eqn:E.
    - apply String.eqb_eq in E. subst a.
      unfold cli_delete_contact in Hc. no_call_branch Hc.
    - rewrite run_cli_delete_contact in Hc |- * by exact E.
      apply one_call_run_rejected; assumption. }
  destruct (is_command command "search-contacts").
  { rewrite run_cli_search_contacts in Hc |- *.
    destruct (remote w search_contacts_call) as [e|r] eqn:R; simpl in Hc.
    - injection Hc as Hc. subst c. rewrite R in Herr.
      injection Herr as ->. reflexivity.
    - rewrite calls_printed_contacts in Hc. injection Hc as Hc. subst c.
      rewrite R in Herr. discriminate Herr. }
  destruct (is_command command "update-contact").
  { destruct args as [|a args];
      [unfold cli_update_contact in Hc; no_call_branch Hc|].
    destruct (a =? "") eqn:E.
    - apply String.eqb_eq in E. subst a.
      unfold cli_update_contact in Hc. no_call_branch Hc.
    - rewrite run_cli_update_contact in Hc |- * by exact E.
      apply one_call_run_rejected; assumption. }
  destruct (is_command command "get-last-contacts"); [|discriminate Hc].
  rewrite run_cli_get_last_contacts in Hc |- *.
  destruct (remote w (searchApi_doSearch get_last_contacts_request))
    as [e|r] eqn:R; simpl in Hc.
  - injection Hc as Hc. subst c. rewrite R in Herr.
    injection Herr as ->. reflexivity.
  - rewrite calls_printed_contacts in Hc. injection Hc as Hc. subst c.
    rewrite R in Herr. discriminate Herr.
Qed.

End RejectedOnCommandLine.

(** X16.  Whatever the command line: when [main] has made a client call
    and the call is rejected, [main] writes one line on the error stream,
    the label of the command and the message of the error (or [Unknown
    error]), writes nothing on the standard output, and exits with status
    1 (the [catch] blocks of lines 351-354, 392-395, 410-413, 441-444,
    483-486 and 514-517). *)
Theorem cli_remote_failure_exits_1 {host : Host} (w : World)
  (argv : list string) (c : RemoteCall) (error : Thrown) :
  calls_of w (main argv) = [c] ->
  remote w c = inl error ->
  run w (main argv) 0 =
  ((startup_log ++
    [ECall c;
     EConsole Stderr
       [LStr (command_error_label (nth_error argv 2));
        LStr (error_message error)]])%list,
   Exited 1%Z).
Proof.
  unfold calls_of. rewrite run_main_any. intros Hc Herr.
  assert (Hd : calls (fst (run w (dispatch (nth_error argv 2)
                                    (skipn 3 argv)) 0)) = [c]).
  { destruct (run w (dispatch (nth_error argv 2) (skipn 3 argv)) 0)
      as [log out]. exact Hc. }
  rewrite (dispatch_rejected w _ _ Hd Herr). reflexivity.
Qed.


(** X18.  The two listing commands, whatever follows them on the command line:
    on a resolved call they print the heading and then, for each contact
    in the order of the answer, six lines, the first five of which are
    the lines of the block that the tool returns for that contact; the
    process exits with status 0 (lines 415-440 and 488-513). *)
Theorem cli_listing_prints {host : Host} (w : World) (node script : string)
  (args : list string) :
  (forall r : Collection,
      remote w search_contacts_call = inr r ->
      run w (main (node :: script :: "search-contacts" :: args)) 0 =
      ((startup_log ++
        ECall search_contacts_call ::
        EConsole Stdout [LStr (LF ++ "Last 10 contacts:" ++ LF)] ::
        printed_contacts w (results r) 0)%list,
       Exited 0%Z))
  /\ (forall r : Collection,
      remote w (searchApi_doSearch get_last_contacts_request) = inr r ->
      run w (main (node :: script :: "get-last-contacts" :: args)) 0 =
      ((startup_log ++
        ECall (searchApi_doSearch get_last_contacts_request) ::
        EConsole Stdout
          [LStr (LF ++ "Last 2 contacts (sorted by creation date):" ++ LF)] ::
        printed_contacts w (results r) 0)%list,
       Exited 0%Z))
  /\ (forall (cs : list SimplePublicObject) (tick : nat),
      length (filter writes_stdout (printed_contacts w cs tick)) =
      6 * length cs)
  /\ (forall (c : SimplePublicObject) (d : Date),
      contact_block c d = String.concat LF (contact_lines c d)).
Proof.
  split; [|split; [|split]].
  - intros r H. rewrite run_main_any. cbn [nth_error skipn].
    change (dispatch (Some "search-contacts") args) with cli_search_contacts.
    rewrite run_cli_search_contacts, H. reflexivity.
  - intros r H. rewrite run_main_any. cbn [nth_error skipn].
    change (dispatch (Some "get-last-contacts") args)
      with cli_get_last_contacts.
    rewrite run_cli_get_last_contacts, H. reflexivity.
  - apply stdout_printed_contacts.
  - reflexivity.
Qed.

(** X19.  [main] reads no argument beyond those of its command: nothing after
    the fourth argument of create-contact or after the first of
    get-contact and delete-contact, and nothing at all after
    search-contacts and get-last-contacts, changes the program that
    runs (lines 326-329, 357, 398, 415 and 488). *)
Theorem cli_ignores_extra_arguments {host : Host} (node script : string)
  (args : list string) :
  main (node :: script :: "create-contact" :: args) =
    main (node :: script :: "create-contact" :: firstn 4 args)
  /\ main (node :: script :: "get-contact" :: args) =
       main (node :: script :: "get-contact" :: firstn 1 args)
  /\ main (node :: script :: "delete-contact" :: args) =
       main (node :: script :: "delete-contact" :: firstn 1 args)
  /\ main (node :: script :: "search-contacts" :: args) =
       main [node; script; "search-contacts"]
  /\ main (node :: script :: "get-last-contacts" :: args) =
       main [node; script; "get-last-contacts"].
Proof.
  unfold main. cbn [nth_error skipn].
  repeat split.
  - change (dispatch (Some "create-contact") ?a) with (cli_create_contact a).
    replace (cli_create_contact (firstn 4 args))
      with (cli_create_contact args); [reflexivity|].
    destruct args as [|a [|b [|c [|d rest]]]]; reflexivity.
  - change (dispatch (Some "get-contact") ?a) with (cli_get_contact a).
    replace (cli_get_contact (firstn 1 args)) with (cli_get_contact args);
      [reflexivity|].
    destruct args as [|a rest]; reflexivity.
  - change (dispatch (Some "delete-contact") ?a) with (cli_delete_contact a).
    replace (cli_delete_contact (firstn 1 args))
      with (cli_delete_contact args); [reflexivity|].
    destruct args as [|a rest]; reflexivity.
Qed.

(** X20.  When the search of get-contact finds contacts, the handler reports
    the first one and no other.  The text has fallbacks for the name (the
    empty string) and the phone ([N/A]) but none for the email: a contact
    that comes back without properties is reported with the email
    [undefined] (lines 109-117). *)
Theorem get_contact_found_text {host : Host} (w : World) (email : string)
  (contact : SimplePublicObject) (others : list SimplePublicObject) :
  remote w (searchApi_doSearch (get_contact_request email)) =
    inr {| results := contact :: others |} ->
  outcome_of w (get_contact_tool email) =
    Returned (text_content (contact_found_text contact))
  /\ (properties contact = [] ->
      contact_found_text contact =
      "Contact found:" ++ LF ++ "ID: " ++ id contact ++ LF ++
      "Email: undefined" ++ LF ++ "Name:  " ++ LF ++ "Phone: N/A").
Proof.
  intros H. split.
  - unfold outcome_of, get_contact_tool. run_steps. rewrite H. reflexivity.
  - intros Hnone. unfold contact_found_text. rewrite Hnone. reflexivity.
Qed.

(** X21.  A block is six lines, the lines of the array that was joined, as long
    as no value of the contact and no rendered date holds a line feed:
    the values are printed as they are, so that is the condition under
    which the layout can be relied on (lines 155-162). *)
Theorem block_is_six_lines {host : Host} (contact : SimplePublicObject)
  (createDate : Date) :
  let props := properties contact in
  no_line_feed (id contact) = true ->
  no_line_feed (js_or (prop props "firstname") "") = true ->
  no_line_feed (js_or (prop props "lastname") "") = true ->
  no_line_feed (js_or (prop props "email") "N/A") = true ->
  no_line_feed (js_or (prop props "phone") "N/A") = true ->
  no_line_feed (toLocaleString createDate) = true ->
  lines (contact_block contact createDate) = contact_lines contact createDate.
Proof.
  intros props Hid Hfirst Hlast Hemail Hphone Hdate.
  unfold contact_block, contact_lines. fold props.
  cbn [String.concat].
  rewrite lines_app_LF
    by (rewrite no_line_feed_app, Hid; reflexivity).
  rewrite lines_app_LF
    by (rewrite !no_line_feed_app, Hfirst, Hlast; reflexivity).
  rewrite lines_app_LF
    by (rewrite no_line_feed_app, Hemail; reflexivity).
  rewrite lines_app_LF
    by (rewrite no_line_feed_app, Hphone; reflexivity).
  rewrite lines_app_LF
    by (rewrite no_line_feed_app, Hdate; reflexivity).
  reflexivity.
Qed.

(** ** The order of the flags, and of the clock readings *)

Lemma obj_get_switch_flag (flag value : string) (o : JsObject) (k : string) :
  obj_get (switch_flag flag value o) k =
  match flag_key flag with
  | Some key => if k =? key then Some value else obj_get o k
  | None => obj_get o k
  end.
Proof.
  unfold switch_flag, flag_key.
  repeat match goal with
         | |- context [if (flag =? ?x) then _ else _] => destruct (flag =? x)
         end;
    rewrite ?obj_get_set; reflexivity.
Qed.

(** What the loop leaves under a key depends on the starting mapping
    only through what it held under that key. *)
Lemma obj_get_parse_update_args_ext (updateArgs : list string) (k : string) :
  (forall o o', obj_get o k = obj_get o' k ->
     obj_get (parse_update_args updateArgs o) k =
     obj_get (parse_update_args updateArgs o') k) /\
  (forall a o o', obj_get o k = obj_get o' k ->
     obj_get (parse_update_args (a :: updateArgs) o) k =
     obj_get (parse_update_args (a :: updateArgs) o') k).
Proof.
  induction updateArgs as [|b rest [IH0 IH1]].
  - split; intros; assumption.
  - split; [exact (IH1 b)|].
    intros a o o' H. simpl. apply IH0.
    destruct (b =? ""); [exact H|].
    rewrite !obj_get_switch_flag.
    destruct (flag_key a) as [key|]; [|exact H].
    destruct (k =? key); [reflexivity|exact H].
Qed.

(** X6.  Two flags that write different keys can change places on the command
    line without changing what is sent under any key; only the order of
    the keys in the object, and so in the printed JSON, follows the
    command line (lines 458-478). *)
Theorem update_flags_order_irrelevant (flag1 value1 flag2 value2 : string)
  (rest : list string) (properties : JsObject) (k : string) :
  flag_key flag1 <> flag_key flag2 ->
  obj_get
    (parse_update_args (flag1 :: value1 :: flag2 :: value2 :: rest)
       properties) k =
  obj_get
    (parse_update_args (flag2 :: value2 :: flag1 :: value1 :: rest)
       properties) k.
Proof.
  intros Hdiff.
  cbn [parse_update_args].
  apply (proj1 (obj_get_parse_update_args_ext rest k)).
  destruct (value1 =? ""), (value2 =? ""); try reflexivity.
  rewrite !obj_get_switch_flag.
  destruct (flag_key flag1) as [key1|], (flag_key flag2) as [key2|];
    try reflexivity.
  destruct (k =? key1) eqn:E1, (k =? key2) eqn:E2; try reflexivity.
  apply String.eqb_eq in E1, E2. subst. contradiction.
Qed.

Section ClockOrder.
Context {host : Host}.
Variable w : World.

Lemma ticks_date_log_undated (c : SimplePublicObject)
  (cs : list SimplePublicObject) :
  length (undated (c :: cs)) =
  ticks (date_log (properties c)) + length (undated cs).
Proof.
  unfold undated, date_log. simpl.
  destruct (js_truthy (prop (properties c) "createdate")); reflexivity.
Qed.

Lemma nth_formatted_blocks (before : list SimplePublicObject)
  (c : SimplePublicObject) (after : list SimplePublicObject) (tick : nat) :
  nth_error (formatted_blocks w (before ++ c :: after) tick) (length before) =
  Some (contact_block c
          (settled_date w (properties c) (tick + length (undated before)))).
Proof.
  revert tick. induction before as [|b before IH]; intros tick.
  - simpl. rewrite Nat.add_0_r. reflexivity.
  - cbn [app formatted_blocks length nth_error]. rewrite IH.
    rewrite ticks_date_log_undated, Nat.add_assoc. reflexivity.
Qed.

End ClockOrder.

(** X11.  In a listing each contact is rendered on its own terms: one that has
    a usable [createdate] shows that date, parsed, and one that has none
    shows the reading of the clock that follows the readings made for the
    contacts without a date before it in the answer (the callbacks of
    [response.results.map], lines 152-163 and 282-293). *)
Theorem listing_dates_in_order {host : Host} (w : World)
  (before : list SimplePublicObject) (c : SimplePublicObject)
  (after : list SimplePublicObject) :
  exists (log : list Event) (blocks : list string),
    run w (mapM format_contact (before ++ c :: after)) 0 =
      (log, Returned blocks)
    /\ (forall s : string,
          js_truthy (prop (properties c) "createdate") = Some s ->
          nth_error blocks (length before) =
          Some (contact_block c (Date_of_string s)))
    /\ (js_truthy (prop (properties c) "createdate") = None ->
        nth_error blocks (length before) =
        Some (contact_block c (clock w (length (undated before))))).
Proof.
  rewrite run_mapM_format_exact. eexists; eexists.
  split; [reflexivity|]. split.
  - intros s H. rewrite nth_formatted_blocks. unfold settled_date.
    rewrite H. reflexivity.
  - intros H. rewrite nth_formatted_blocks. unfold settled_date.
    rewrite H. reflexivity.
Qed.

(** * The further properties at concrete inputs *)

Lemma update_flags_write_known_keys_only_witness :
  written_key "company" = false
  /\ obj_get
       (parse_update_args ["--company"; "ACME"; "--phone"; "555"]
          [("company", "Initech")]) "company" = Some "Initech".
Proof.
  split; [reflexivity|].
  rewrite (@update_flags_write_known_keys_only
             ["--company"; "ACME"; "--phone"; "555"]
             [("company", "Initech")] "company" eq_refl).
  reflexivity.
Defined.

Lemma update_flags_skip_unknown_witness :
  known_flag "--company" = false
  /\ parse_update_args ["--company"; "ACME"; "--phone"; "555"] [] =
     parse_update_args ["--phone"; "555"] [].
Proof.
  split; [reflexivity|].
  apply (proj1 (@update_flags_skip_unknown "--company" "ACME" "--phone"
                  ["--phone"; "555"] [] eq_refl)).
Defined.

Lemma update_flags_last_wins_witness :
  Nat.even (length ["--email"; "old@example.com"]) = true
  /\ ("new@example.com" =? "") = false
  /\ obj_get
       (parse_update_args
          (["--email"; "old@example.com"] ++ ["--email"; "new@example.com"])
          []) "email" = Some "new@example.com".
Proof.
  split; [reflexivity|]. split; [reflexivity|].
  apply (proj1 (@update_flags_last_wins ["--email"; "old@example.com"]
                  "new@example.com" [] eq_refl eq_refl)).
Defined.

Lemma update_flags_order_irrelevant_witness :
  flag_key "--email" <> flag_key "--phone"
  /\ obj_get
       (parse_update_args ["--email"; "a@b.com"; "--phone"; "555"] [])
       "phone" =
     obj_get
       (parse_update_args ["--phone"; "555"; "--email"; "a@b.com"] [])
       "phone".
Proof.
  assert (H : flag_key "--email" <> flag_key "--phone") by discriminate.
  split; [exact H|].
  apply (@update_flags_order_irrelevant "--email" "a@b.com" "--phone" "555"
           [] [] "phone" H).
Defined.

Lemma error_message_fallback_witness :
  optional_message (ThrownObject (JStr "boom")) = JStr "boom"
  /\ ("boom" =? "") = false
  /\ error_message (ThrownObject (JStr "boom")) = "boom"
  /\ optional_message (ThrownObject JNull) = JNull
  /\ error_message (ThrownObject JNull) = "Unknown error".
Proof.
  split; [reflexivity|]. split; [reflexivity|]. split.
  - apply (proj1 (proj2 (error_message_fallback
                           (ThrownObject (JStr "boom"))))
             "boom" eq_refl eq_refl).
  - split; [reflexivity|].
    apply (proj2 (proj2 (error_message_fallback (ThrownObject JNull)))).
    right; left. reflexivity.
Defined.

Lemma tool_console_discipline_witness :
  remote empty_world (remote_call (DeleteContact "9")) = inr tt
  /\ existsb writes_stderr
       (fst (run empty_world (call_tool (DeleteContact "9")) 0)) = false
  /\ remote (failing_world ThrownNullish) (remote_call (DeleteContact "9")) =
     inl ThrownNullish
  /\ fst (run (failing_world ThrownNullish)
            (call_tool (DeleteContact "9")) 0) =
     [ECall (basicApi_archive "9");
      EConsole Stderr [LStr "Error deleting contact:"; LErr ThrownNullish]].
Proof.
  split; [reflexivity|]. split.
  - apply (proj1 (proj2 (@tool_console_discipline plain_host empty_world
                           (DeleteContact "9"))) tt eq_refl).
  - split; [reflexivity|].
    apply (proj2 (proj2 (@tool_console_discipline plain_host
                           (failing_world ThrownNullish)
                           (DeleteContact "9"))) ThrownNullish eq_refl).
Defined.

Lemma listing_tool_text_witness :
  remote found_world search_contacts_call =
    inr {| results := [contact_42; contact_created_2024] |}
  /\ remote found_world (searchApi_doSearch get_last_contacts_request) =
    inr {| results := [contact_42; contact_created_2024] |}
  /\ fst (run found_world (search_contacts_tool None) 0) =
     [ECall search_contacts_call; ENewDate]
  /\ fst (run found_world get_last_contacts_tool 0) =
     [ECall (searchApi_doSearch get_last_contacts_request); ENewDate].
Proof.
  split; [reflexivity|]. split; [reflexivity|].
  destruct (@listing_tool_text plain_host found_world None)
    as [Hsearch Hlast].
  split.
  - rewrite (proj1 (Hsearch _ eq_refl)). reflexivity.
  - rewrite (proj1 (Hlast _ eq_refl)). reflexivity.
Defined.

Lemma known_command_ends_the_process_witness :
  known_command (nth_error ["node"; "build/index.js"; "delete-contact"] 2)
    = true
  /\ ((exists c : RemoteCall,
         calls_of empty_world
           (main ["node"; "build/index.js"; "delete-contact"]) = [c] /\
         outcome_of empty_world
           (main ["node"; "build/index.js"; "delete-contact"]) =
         match remote empty_world c with
         | inl _ => Exited 1%Z
         | inr _ => Exited 0%Z
         end)
      \/ (calls_of empty_world
            (main ["node"; "build/index.js"; "delete-contact"]) = [] /\
          outcome_of empty_world
            (main ["node"; "build/index.js"; "delete-contact"]) =
          Exited 1%Z)).
Proof.
  split; [reflexivity|].
  apply (@known_command_ends_the_process plain_host empty_world
           ["node"; "build/index.js"; "delete-contact"] eq_refl).
Defined.

Lemma unknown_command_keeps_serving_witness :
  known_command (nth_error ["node"; "build/index.js"; "list-contacts"] 2)
    = false
  /\ known_command (nth_error ["node"; "build/index.js"] 2) = false
  /\ run empty_world (main ["node"; "build/index.js"; "list-contacts"]) 0 =
     (startup_log, Returned tt)
  /\ run empty_world (main ["node"; "build/index.js"]) 0 =
     (startup_log, Returned tt).
Proof.
  split; [reflexivity|]. split; [reflexivity|]. split.
  - apply (@unknown_command_keeps_serving plain_host empty_world
             ["node"; "build/index.js"; "list-contacts"] eq_refl).
  - apply (@unknown_command_keeps_serving plain_host empty_world
             ["node"; "build/index.js"] eq_refl).
Defined.

Lemma cli_missing_argument_prints_usage_witness :
  needs_argument "update-contact" = true
  /\ truthy (nth_error [""; "--phone"; "555"] 0) = false
  /\ run empty_world
       (main ["node"; "build/index.js"; "update-contact"; "";
              "--phone"; "555"]) 0 =
     ((startup_log ++ usage_lines "update-contact")%list, Exited 1%Z).
Proof.
  split; [reflexivity|]. split; [reflexivity|].
  apply (@cli_missing_argument_prints_usage plain_host empty_world
           "node" "build/index.js" "update-contact" [""; "--phone"; "555"]
           eq_refl eq_refl).
Defined.

Lemma cli_remote_failure_exits_1_witness :
  calls_of (failing_world (ThrownObject (JStr "401")))
    (main ["node"; "build/index.js"; "create-contact"; "john@example.com"])
  = [basicApi_create [("email", "john@example.com")]]
  /\ remote (failing_world (ThrownObject (JStr "401")))
       (basicApi_create [("email", "john@example.com")]) =
     inl (ThrownObject (JStr "401"))
  /\ run (failing_world (ThrownObject (JStr "401")))
       (main ["node"; "build/index.js"; "create-contact";
              "john@example.com"]) 0 =
     ((startup_log ++
       [ECall (basicApi_create [("email", "john@example.com")]);
        EConsole Stderr [LStr "Error creating contact:"; LStr "401"]])%list,
      Exited 1%Z).
Proof.
  split; [reflexivity|]. split; [reflexivity|].
  apply (@cli_remote_failure_exits_1 plain_host
           (failing_world (ThrownObject (JStr "401")))
           ["node"; "build/index.js"; "create-contact"; "john@example.com"]
           (basicApi_create [("email", "john@example.com")])
           (ThrownObject (JStr "401")) eq_refl eq_refl).
Defined.


Lemma cli_listing_prints_witness :
  remote found_world search_contacts_call =
    inr {| results := [contact_42; contact_created_2024] |}
  /\ outcome_of found_world
       (main ["node"; "build/index.js"; "search-contacts"; "ignored"]) =
     Exited 0%Z.
Proof.
  split; [reflexivity|].
  unfold outcome_of.
  rewrite (proj1 (@cli_listing_prints plain_host found_world
                    "node" "build/index.js" ["ignored"]) _ eq_refl).
  reflexivity.
Defined.

Lemma get_contact_found_text_witness :
  remote found_world (searchApi_doSearch (get_contact_request "a@b.com")) =
    inr {| results := contact_42 :: [contact_created_2024] |}
  /\ outcome_of found_world (get_contact_tool "a@b.com") =
     Returned (text_content (contact_found_text contact_42)).
Proof.
  split; [reflexivity|].
  apply (proj1 (@get_contact_found_text plain_host found_world "a@b.com"
                  contact_42 [contact_created_2024] eq_refl)).
Defined.

Lemma block_is_six_lines_witness :
  no_line_feed (id contact_42) = true
  /\ lines (@contact_block plain_host contact_42 sample_now) =
     ["Contact ID: 42"; "Name: A B"; "Email: a@b.com"; "Phone: 555";
      "Created: now"; "---"].
Proof.
  split; [reflexivity|].
  rewrite (@block_is_six_lines plain_host contact_42 sample_now
             eq_refl eq_refl eq_refl eq_refl eq_refl eq_refl).
  reflexivity.
Defined.

Lemma listing_dates_in_order_witness :
  js_truthy (prop (properties contact_created_2024) "createdate") =
    Some "2024-01-01"
  /\ exists (log : list Event) (blocks : list string),
       run found_world
         (mapM format_contact ([contact_42] ++ contact_created_2024 :: []))
         0 = (log, Returned blocks)
       /\ nth_error blocks 1 =
          Some (@contact_block plain_host contact_created_2024
                  (@Date_of_string plain_host "2024-01-01")).
Proof.
  split; [reflexivity|].
  destruct (@listing_dates_in_order plain_host found_world [contact_42]
              contact_created_2024 []) as (log & blocks & Hrun & Hdate & _).
  exists log, blocks. split; [exact Hrun|].
  apply (Hdate "2024-01-01" eq_refl).
Defined.

(** * The server in front of the handlers *)

Section Server.
Context {host : Host} {zod : Zod}.
Variable w : World.

(** What the schema takes for an email address is not empty. *)
Lemma is_email_not_empty (email : string) :
  is_email email = true -> (email =? "") = false.
Proof.
  intros H. destruct (email =? "") eqn:E; [|reflexivity].
  apply String.eqb_eq in E. subst email.
  rewrite is_email_empty in H. discriminate H.
Qed.

(** Arguments that the schema refuses: the answer says so, and nothing
    else happens. *)
Lemma run_serve_invalid (t : ToolRequest) (tick : nat) :
  schema_valid t = false ->
  run w (serve_tool_call t) tick = ([], Returned InvalidParams).
Proof. unfold serve_tool_call. intros H. rewrite H. reflexivity. Qed.

(** Arguments that the schema accepts: the handler runs. *)
Lemma calls_of_serve (t : ToolRequest) :
  calls_of w (serve_tool_call t) =
  if schema_valid t then [remote_call t] else [].
Proof.
  unfold calls_of, serve_tool_call.
  destruct (schema_valid t); [|reflexivity].
  rewrite run_bind.
  destruct (run_tool_returns w t) as (log & r & Hrun & Hcalls).
  rewrite Hrun. simpl. rewrite app_nil_r. exact Hcalls.
Qed.

(** The command line of a request whose required argument is empty:
    usage, exit status 1, no call. *)
Lemma run_main_cli_args_usage (node script : string) (t : ToolRequest) :
  required_present t = false ->
  run w (main (node :: script :: cli_args t)) 0 =
  ((startup_log ++ usage_lines (tool_name t))%list, Exited 1%Z).
Proof.
  intros H. rewrite run_main_cli_args.
  destruct t; simpl in H; try discriminate H;
    apply negb_false_iff in H; apply String.eqb_eq in H; subst;
    reflexivity.
Qed.

End Server.

(** C1, as amended.  For each of the six operations and each request
    that the schema of the tool accepts: when the argument that [main]
    checks first (the email, the contact identifier) is not empty, the
    command line that names the operation on the same inputs makes [main]
    issue exactly the client call that the server issues through the
    handler, with the same property mapping or search request; when that
    argument is empty, [main] prints its usage on the error stream and
    exits with status 1 without a call, while the server still issues the
    call.  Of the handler itself the first part holds for any
    arguments. *)
Theorem cli_issues_the_call_of_the_tool {host : Host} {zod : Zod}
  (w : World) (node script : string) (t : ToolRequest) :
  (schema_valid t = true ->
     (required_present t = true ->
        calls_of w (main (node :: script :: cli_args t)) =
          calls_of w (serve_tool_call t)
        /\ calls_of w (serve_tool_call t) = [remote_call t])
     /\ (required_present t = false ->
        run w (main (node :: script :: cli_args t)) 0 =
          ((startup_log ++ usage_lines (tool_name t))%list, Exited 1%Z)
        /\ calls_of w (main (node :: script :: cli_args t)) = []
        /\ calls_of w (serve_tool_call t) = [remote_call t]))
  /\ (required_present t = true ->
      calls_of w (main (node :: script :: cli_args t)) =
        calls_of w (call_tool t)
      /\ calls_of w (call_tool t) = [remote_call t]).
Proof.
  split; [|apply calls_main_cli_args].
  intros Hvalid.
  assert (Hserve : calls_of w (serve_tool_call t) = [remote_call t]).
  { rewrite calls_of_serve, Hvalid. reflexivity. }
  split.
  - intros Hreq. split; [|exact Hserve].
    rewrite Hserve.
    destruct (calls_main_cli_args w node script t Hreq) as [Hmain Htool].
    rewrite Hmain. exact Htool.
  - intros Hreq. split; [|split; [|exact Hserve]].
    + apply run_main_cli_args_usage. exact Hreq.
    + unfold calls_of.
      rewrite (run_main_cli_args_usage w node script t Hreq).
      destruct t; simpl in Hreq; try discriminate Hreq; reflexivity.
Qed.

(** C10, as amended.  In create-contact and update-contact an optional
    field given as the empty string adds no key to the mapping that is
    sent.  Through the server this holds of first name, last name and
    phone, which are then as good as absent; an empty email of
    update-contact is refused by the schema before the handler runs, with
    no call, where an absent one lets the update go out.  The handlers
    themselves and the branches of [main] treat every empty optional
    field as an absent one.  No call of the server or of [main] for
    these operations carries a mapping with an empty value. *)
Theorem empty_optional_field_is_absent {host : Host} {zod : Zod}
  (w : World) :
  (forall (email : string) (firstName lastName phone : option string),
      serve_tool_call (CreateContact email firstName lastName phone) =
      serve_tool_call
        (CreateContact email (drop_empty firstName) (drop_empty lastName)
           (drop_empty phone)))
  /\ (forall (contactId : string)
             (email firstName lastName phone : option string),
      serve_tool_call
        (UpdateContact contactId email firstName lastName phone) =
      serve_tool_call
        (UpdateContact contactId email (drop_empty firstName)
           (drop_empty lastName) (drop_empty phone)))
  /\ (forall (contactId : string) (firstName lastName phone : option string),
      run w
        (serve_tool_call
           (UpdateContact contactId (Some "") firstName lastName phone)) 0 =
        ([], Returned InvalidParams)
      /\ calls_of w
           (serve_tool_call
              (UpdateContact contactId None firstName lastName phone)) =
         [basicApi_update contactId
            (update_properties None firstName lastName phone)])
  /\ (forall t : ToolRequest,
      forallb sends_no_empty_value (calls_of w (serve_tool_call t)) = true)
  /\ (forall (email : string) (firstName lastName phone : option string),
      create_contact_tool email firstName lastName phone =
      create_contact_tool email (drop_empty firstName) (drop_empty lastName)
        (drop_empty phone))
  /\ (forall (contactId : string)
             (email firstName lastName phone : option string),
      update_contact_tool contactId email firstName lastName phone =
      update_contact_tool contactId (drop_empty email) (drop_empty firstName)
        (drop_empty lastName) (drop_empty phone))
  /\ (forall email firstName lastName : string,
      cli_create_contact [email; ""] = cli_create_contact [email] /\
      cli_create_contact [email; firstName; ""] =
        cli_create_contact [email; firstName] /\
      cli_create_contact [email; firstName; lastName; ""] =
        cli_create_contact [email; firstName; lastName] /\
      cli_create_contact [email; ""; lastName] =
        cli_create_contact [email; ""; lastName; ""])
  /\ (forall (flag : string) (rest : list string) (properties : JsObject),
      parse_update_args (flag :: "" :: rest) properties =
      parse_update_args rest properties)
  /\ (forall (email : string) (firstName lastName phone : option string),
      forallb sends_no_empty_value
        (calls_of w (create_contact_tool email firstName lastName phone)) =
      negb (email =? ""))
  /\ (forall (contactId : string)
             (email firstName lastName phone : option string),
      forallb sends_no_empty_value
        (calls_of w
           (update_contact_tool contactId email firstName lastName phone)) =
      true)
  /\ (forall args : list string,
      forallb sends_no_empty_value (calls_of w (cli_create_contact args)) =
      true)
  /\ (forall args : list string,
      forallb sends_no_empty_value (calls_of w (cli_update_contact args)) =
      true).
Proof.
  split.
  { intros email firstName lastName phone.
    destruct firstName as [[|c1 s1]|], lastName as [[|c2 s2]|],
      phone as [[|c3 s3]|]; reflexivity. }
  split.
  { intros contactId email firstName lastName phone.
    destruct firstName as [[|c1 s1]|], lastName as [[|c2 s2]|],
      phone as [[|c3 s3]|]; reflexivity. }
  split.
  { intros contactId firstName lastName phone. split.
    - apply run_serve_invalid. simpl. apply is_email_empty.
    - rewrite calls_of_serve. reflexivity. }
  split.
  { intros t. rewrite calls_of_serve.
    destruct (schema_valid t) eqn:Hvalid; [|reflexivity].
    destruct t; simpl in Hvalid |- *; try reflexivity.
    - rewrite no_empty_value_create_properties,
        (is_email_not_empty _ Hvalid).
      reflexivity.
    - rewrite no_empty_value_update_properties. reflexivity. }
  exact (empty_field_in_handlers_and_cli w).
Qed.

(** * The amended claims at concrete inputs *)

(** C1 at [update-contact 12345 --firstName John --phone +1234567890],
    and at [delete-contact] with an empty identifier. *)
Lemma cli_issues_the_call_of_the_tool_witness :
  @schema_valid plain_zod update_12345 = true
  /\ required_present update_12345 = true
  /\ calls_of empty_world
       (main ("node" :: "build/index.js" :: cli_args update_12345)) =
     calls_of empty_world (@serve_tool_call plain_host plain_zod update_12345)
  /\ @schema_valid plain_zod (DeleteContact "") = true
  /\ required_present (DeleteContact "") = false
  /\ calls_of empty_world
       (main ("node" :: "build/index.js" :: cli_args (DeleteContact ""))) = []
  /\ calls_of empty_world
       (@serve_tool_call plain_host plain_zod (DeleteContact "")) =
     [basicApi_archive ""].
Proof.
  split; [reflexivity|]. split; [reflexivity|]. split.
  { apply (proj1 (proj1 (proj1 (@cli_issues_the_call_of_the_tool plain_host
                                  plain_zod empty_world "node"
                                  "build/index.js" update_12345)
                           eq_refl) eq_refl)). }
  split; [reflexivity|]. split; [reflexivity|].
  destruct (proj2 (proj1 (@cli_issues_the_call_of_the_tool plain_host
                            plain_zod empty_world "node" "build/index.js"
                            (DeleteContact "")) eq_refl) eq_refl)
    as (_ & Hmain & Hserve).
  split; [exact Hmain|exact Hserve].
Defined.

(** C10 as stated fails at the email of update-contact in protocol mode:
    given as the empty string it is refused by the schema and nothing is
    sent, where an absent email lets the update go out with an empty
    mapping. *)
Lemma update_empty_email_is_refused_not_absent :
  run empty_world
    (@serve_tool_call plain_host plain_zod
       (UpdateContact "1" (Some "") None None None)) 0 =
    ([], Returned InvalidParams)
  /\ calls_of empty_world
       (@serve_tool_call plain_host plain_zod
          (UpdateContact "1" None None None None)) =
     [basicApi_update "1" []]
  /\ calls_of empty_world
       (@serve_tool_call plain_host plain_zod
          (UpdateContact "1" (Some "") None None None)) <>
     calls_of empty_world
       (@serve_tool_call plain_host plain_zod
          (UpdateContact "1" None None None None)).
Proof.
  split; [reflexivity|]. split; [reflexivity|].
  vm_compute. discriminate.
Qed.
